(* ===== verification/_CoqProject ===== *)
-Q . S2P
Prelude.v
Types.v
Json.v
JsonText.v
LocalStore.v
Database.v
ItemGrid.v
Sync.v
Validation.v
DonateForm.v
Scenarios.v
