(* ===== verification/Prelude.v ===== *)
(** * HeartShare: a verification development of the donation marketplace

    The repository is a React single-page application (TypeScript, under
    src/src/) in which donors list items and browsers claim them.  Its parts
    and how they interact:

    - types/donation.ts: the item record [DonatedItem] and the fixed
      category and condition lists.  Modelled in [Types.v].
    - lib/database.ts: the client of the hosted [donated_items] table
      (select ordered by creation time, insert, delete by id, and a change
      channel with INSERT and DELETE notifications).  Modelled in
      [Database.v]: the table is a list of rows with its primary key, the
      server evaluates each query on it, and every successful change appends
      a notification to the change feed; the TypeScript wrappers turn the
      raw response into the value the components see, errors included.
    - lib/storage.ts and the claimed-placeholder helpers of
      components/ItemGrid.tsx: browser local storage, a map from keys to
      strings holding JSON text.  Modelled in [LocalStore.v] against the
      [JsonCodec] interface (JSON.stringify / JSON.parse).  Its theorems:
      a claimed id is persisted and read back, a full store throws
      [QuotaExceededError], a corrupt stored value throws [TypeError].
    - components/ItemGrid.tsx with components/ClaimDialog.tsx: the item
      listing, its realtime patching and the two-step claim flow.  Modelled
      in [ItemGrid.v]: a record of the component's React state, one
      function per handler, and the asynchronous continuations of the
      handlers that await the database as explicit pending tasks.  Its
      theorems: confirming a placeholder claim closes the dialog, drops the
      placeholder and keeps it excluded on the next load; with a corrupt
      store the handler rejects before any update.
    - [Sync.v] composes the table, the change feed and the grid into one
      system with an interleaving step relation (other clients' writes,
      the channel's join, the server executing or the network failing the
      grid's requests, delivery of replies and notifications, the user's
      clicks).  Its theorems: [synced] (the shown list is the table up to
      order) is an invariant of every step and refines the table whenever
      no notification is pending; delivering the initial fetch reconciles
      the grid when its snapshot matches; and concrete executions exhibit
      the races of the code (a row shown twice, a row lost, a failed claim
      reported as a success, the success dialog showing the wrong email).
    - components/DonateForm.tsx: [Validation.v] models [String.trim] and
      the email regular expression (the executable test is proved equal to
      the regex's language); [DonateForm.v] the form's React state, its
      handlers, [validateForm] and the submit flow, whose two awaits are
      pending requests of a step relation.  Its theorems: [validateForm]
      accepts exactly the valid forms, a blank required field blocks the
      submission with its message, an invariant of every step (one
      submission at a time, only images of at most 5MB, only validated
      rows sent), and the rejection of every email with a leading blank
      whose trimmed form the pattern accepts.
    - [JsonText.v] gives the [JsonCodec] interface of [Json.v] a concrete
      printer and parser with the roundtrip [parse_print]; [Scenarios.v]
      applies the theorems that have hypotheses at concrete stores, grids,
      forms and systems built with it.

    Bounds and fuel: the JSON parser runs on fuel [S (length l)] for an
    input [l], enough since every nested value consumes at least one
    character ([parse_print] proves it for every printed value).  The
    local-storage quota is a section variable: the theorems hold for every
    quota, with the write's size as the hypothesis that decides between
    success and [QuotaExceededError].  Timestamps are integers (the code's
    ISO strings compare as the times they denote).

    Not modelled: the page layout components (Navbar, HeroSection, Footer,
    the pages, the card markup), [generateId] (time and randomness),
    [fileToBase64] (a FileReader: its result is an input of the submit
    flow), toasts and navigation beyond the fact that they are requested,
    and the unsubscribe on unmount.  The hosted table's queries are
    modelled from their documented semantics (Module [Server]).

    This file, the prelude, holds what every component shares: the
    [HasId] interface of records keyed by a string id, removal by id with
    its lemmas, the notation scope [heart_scope], the hint database
    [heartshare] and the development's tactics. *)

From stdpp Require Export base list strings gmap.
From Stdlib Require Export Permutation.

Declare Scope heart_scope.
Delimit Scope heart_scope with heart.
Open Scope heart_scope.

Create HintDb heartshare.
Create Rewrite HintDb heartshare_rw.

(** ** Records keyed by a string id

    Every list the program filters by id ([donatedItems], [placeholderItems],
    the rows of the table) holds records with an [id: string] field. *)

Class HasId (A : Type) := get_id : A -> string.
#[global] Arguments get_id {_ _} _.

Section WithId.
Context {A : Type} `{HasId A}.

(** The ids of a list, in order. *)
Definition ids (l : list A) : list string := map get_id l.

(** [l.filter((item) => item.id !== k)] *)
Definition remove_id (k : string) (l : list A) : list A :=
  filter (fun x => get_id x <> k) l.
End WithId.

Notation "l ⊖ k" := (remove_id k l) (at level 50, left associativity) : heart_scope.

(** [arr.includes(x)] on an array of strings: SameValueZero is string
    equality on strings. *)
Definition includes (l : list string) (x : string) : bool := bool_decide (x ∈ l).

(** ** Tactics *)

(** Unfold the boolean tests of the development into propositions. *)
Ltac bool_to_prop :=
  repeat match goal with
  | H : bool_decide _ = true |- _ => apply bool_decide_eq_true in H
  | H : bool_decide _ = false |- _ => apply bool_decide_eq_false in H
  | |- bool_decide _ = true => apply bool_decide_eq_true
  | |- bool_decide _ = false => apply bool_decide_eq_false
  end.

(** ** Lemmas on removal by id *)

Section RemoveId.
Context {A : Type} `{HasId A}.
Implicit Types (l : list A) (x : A) (k : string).

Lemma elem_of_remove_id x k l : x ∈ l ⊖ k <-> x ∈ l /\ get_id x <> k.
Proof. unfold remove_id. rewrite list_elem_of_filter. tauto. Qed.

Lemma ids_cons x l : ids (x :: l) = get_id x :: ids l.
Proof. reflexivity. Qed.

Lemma ids_app l1 l2 : ids (l1 ++ l2) = ids l1 ++ ids l2.
Proof. apply map_app. Qed.

Lemma elem_of_ids k l : k ∈ ids l <-> exists x, x ∈ l /\ get_id x = k.
Proof. unfold ids. rewrite list_elem_of_fmap. naive_solver. Qed.

Lemma not_elem_of_ids_remove_id k l : k ∉ ids (l ⊖ k).
Proof.
  rewrite elem_of_ids. intros (x & Hx & Hk).
  apply elem_of_remove_id in Hx. tauto.
Qed.

Lemma remove_id_cons_eq x l k : get_id x = k -> (x :: l) ⊖ k = l ⊖ k.
Proof. intros Hk. unfold remove_id. rewrite filter_cons_False; auto. Qed.

Lemma remove_id_cons_ne x l k : get_id x <> k -> (x :: l) ⊖ k = x :: l ⊖ k.
Proof. intros Hk. unfold remove_id. rewrite filter_cons_True; auto. Qed.

(** Push [⊖] through a cons cell, by the cases on the head's id. *)
Ltac simpl_remove_id :=
  repeat first [ rewrite remove_id_cons_eq by done
               | rewrite remove_id_cons_ne by done ].

(** Removing an id that is absent leaves the list as it is. *)
Lemma remove_id_notin k l : k ∉ ids l -> l ⊖ k = l.
Proof.
  induction l as [|x l IH]; intros Hk; [done|].
  rewrite ids_cons, elem_of_cons in Hk.
  rewrite remove_id_cons_ne by naive_solver. f_equal. naive_solver.
Qed.

Lemma remove_id_app l1 l2 k : (l1 ++ l2) ⊖ k = l1 ⊖ k ++ l2 ⊖ k.
Proof. apply filter_app. Qed.

Lemma remove_id_idem l k : l ⊖ k ⊖ k = l ⊖ k.
Proof. apply remove_id_notin, not_elem_of_ids_remove_id. Qed.

Lemma remove_id_comm l k1 k2 : l ⊖ k1 ⊖ k2 = l ⊖ k2 ⊖ k1.
Proof.
  induction l as [|x l IH]; [done|].
  destruct (decide (get_id x = k1)), (decide (get_id x = k2));
    simpl_remove_id; congruence.
Qed.

Lemma NoDup_ids_remove_id l k : NoDup (ids l) -> NoDup (ids (l ⊖ k)).
Proof.
  induction l as [|x l IH]; intros Hnd; [constructor|].
  rewrite ids_cons in Hnd. apply NoDup_cons in Hnd as [Hx Hnd].
  destruct (decide (get_id x = k)).
  - rewrite remove_id_cons_eq by done. auto.
  - rewrite remove_id_cons_ne by done. rewrite ids_cons.
    constructor; [|auto].
    rewrite elem_of_ids. intros (y & Hy & Hxy).
    apply elem_of_remove_id in Hy as [Hy _].
    apply Hx, elem_of_ids. eauto.
Qed.

(** With unique ids, removing the id of a member removes exactly it. *)
Lemma remove_id_length_in l k :
  NoDup (ids l) -> k ∈ ids l -> length (l ⊖ k) = pred (length l).
Proof.
  induction l as [|x l IH]; intros Hnd Hk; [inv Hk|].
  rewrite ids_cons in Hnd, Hk. apply NoDup_cons in Hnd as [Hx Hnd].
  destruct (decide (get_id x = k)) as [<-|Hne].
  - rewrite remove_id_cons_eq, remove_id_notin by done. done.
  - rewrite remove_id_cons_ne by done. apply elem_of_cons in Hk as [->|Hk]; [done|].
    simpl. rewrite IH by done. destruct l; [inv Hk|done].
Qed.

(** Removal by id is a morphism for permutations. *)
#[global] Instance remove_id_Permutation k :
  Proper (Permutation ==> Permutation) (remove_id (A:=A) k).
Proof. intros l1 l2 Hp. unfold remove_id. by rewrite Hp. Qed.

#[global] Instance ids_Permutation :
  Proper (Permutation ==> Permutation) (ids (A:=A)).
Proof. intros l1 l2 Hp. unfold ids. by rewrite Hp. Qed.
End RemoveId.

#[export] Hint Rewrite @remove_id_app @ids_app @ids_cons @remove_id_idem : heartshare_rw.
#[export] Hint Resolve NoDup_ids_remove_id not_elem_of_ids_remove_id remove_id_notin : heartshare.

(** [includes] is membership. *)
Lemma includes_spec l x : includes l x = true <-> x ∈ l.
Proof. unfold includes. apply bool_decide_eq_true. Qed.

Lemma includes_false l x : includes l x = false <-> x ∉ l.
Proof. unfold includes. apply bool_decide_eq_false. Qed.
