(* ===== verification/Types.v ===== *)
(** * Types: the records of types/donation.ts, lib/database.ts and the
    placeholder catalog of components/ItemGrid.tsx

    Strings are [String.string].  The [created_at] column is a Postgres
    [timestamptz]; the client receives it as an ISO-8601 string of one
    fixed format, whose lexicographic order is the order of the instants.
    The development keeps the instant itself, a [Z] count of microseconds,
    which is what the server orders by. *)

From S2P Require Import Prelude.

(** [interface DonatedItem] (types/donation.ts): the view-model an
    [ItemCard] renders. *)
Record DonatedItem := mkDonatedItem {
  di_id : string;
  itemName : string;
  description : string;
  category : string;
  condition : string;
  location : string;
  contactEmail : string;
  imageBase64 : string;
  createdAt : Z
}.

(** [CATEGORIES] and [CONDITIONS] (types/donation.ts). *)
Definition CATEGORIES : list string :=
  ["Electronics"; "Furniture"; "Clothing"; "Books"; "Kitchen"; "Sports"; "Toys"; "Other"].

Definition CONDITIONS : list string := ["Like New"; "Good"; "Fair"; "Needs Repair"].

(** [interface DatabaseDonatedItem] (lib/database.ts): a row of the
    [donated_items] table; [description] and [image_url] are nullable. *)
Record DatabaseDonatedItem := mkRow {
  id : string;
  name : string;
  row_description : option string;
  row_category : string;
  row_condition : string;
  row_location : string;
  contact_email : string;
  image_url : option string;
  created_at : Z
}.

(** [interface PlaceholderItem] (components/ItemGrid.tsx). *)
Record PlaceholderItem := mkPlaceholder {
  ph_id : string;
  ph_name : string;
  ph_category : string;
  ph_condition : string;
  ph_location : string;
  imageUrl : string
}.

#[export] Instance DonatedItem_id : HasId DonatedItem := di_id.
#[export] Instance DatabaseDonatedItem_id : HasId DatabaseDonatedItem := id.
#[export] Instance PlaceholderItem_id : HasId PlaceholderItem := ph_id.

(** [INITIAL_PLACEHOLDER_ITEMS] (components/ItemGrid.tsx). *)
Definition INITIAL_PLACEHOLDER_ITEMS : list PlaceholderItem := [
  mkPlaceholder "ph-1" "Vintage Desk Lamp" "Furniture" "Good" "Downtown"
    "https://images.unsplash.com/photo-1507473885765-e6ed057f782c?w=600&h=400&fit=crop";
  mkPlaceholder "ph-2" "Children's Books Set" "Books" "Like New" "East Side"
    "https://images.unsplash.com/photo-1512820790803-83ca734da794?w=600&h=400&fit=crop";
  mkPlaceholder "ph-3" "Kitchen Mixer" "Kitchen" "Fair" "Suburb Area"
    "https://images.unsplash.com/photo-1594385208974-2e75f8d7bb48?w=600&h=400&fit=crop";
  mkPlaceholder "ph-4" "Yoga Mat" "Sports" "Good" "North District"
    "https://images.unsplash.com/photo-1601925260368-ae2f83cf8b7f?w=600&h=400&fit=crop";
  mkPlaceholder "ph-5" "Winter Jacket" "Clothing" "Like New" "Central"
    "https://images.unsplash.com/photo-1551028719-00167b16eac5?w=600&h=400&fit=crop";
  mkPlaceholder "ph-6" "Board Games Bundle" "Toys" "Good" "West End"
    "https://images.unsplash.com/photo-1611371805429-8b5c1b2c34ba?w=600&h=400&fit=crop"
].

(** The [item={{ ... }}] object literal with which [ItemGrid] renders a
    row as a [DonatedItem]: null columns become the empty string. *)
Definition toDonatedItem (item : DatabaseDonatedItem) : DonatedItem := {|
  di_id := id item;
  itemName := name item;
  description := default EmptyString (row_description item);
  category := row_category item;
  condition := row_condition item;
  location := row_location item;
  contactEmail := contact_email item;
  imageBase64 := default EmptyString (image_url item);
  createdAt := created_at item
|}.

(** The placeholder catalog has unique ids. *)
Lemma INITIAL_PLACEHOLDER_ITEMS_NoDup : NoDup (ids INITIAL_PLACEHOLDER_ITEMS).
Proof. vm_compute. repeat constructor; set_solver. Qed.

(** The catalog only uses categories and conditions of the fixed lists. *)
Lemma INITIAL_PLACEHOLDER_ITEMS_enums :
  Forall (fun p => ph_category p ∈ CATEGORIES /\ ph_condition p ∈ CONDITIONS)
    INITIAL_PLACEHOLDER_ITEMS.
Proof. repeat constructor; vm_compute; set_solver. Qed.

Lemma toDonatedItem_id item : get_id (toDonatedItem item) = get_id item.
Proof. reflexivity. Qed.
