(* ===== verification/Json.v ===== *)
(** * Json: JSON values, JavaScript exceptions and the JSON codec interface

    The code keeps its local-storage data as JSON text ([JSON.stringify]
    on write, [JSON.parse] on read) and then uses the parsed value with
    the JavaScript operations [.includes], [.push], [.unshift], [.filter]
    and property access, each of which throws a [TypeError] on a value of
    the wrong kind.  This file holds:
    - [json], the values [JSON.parse] can return;
    - [js_result], a computation that returns or throws, with its
      sequencing notation [let! x := c in k] in [heart_scope];
    - [JsonCodec], the interface of [JSON.stringify] and [JSON.parse] the
      storage code relies on: parsing what was printed gives the value
      back.  The browser provides the codec; it is not part of the
      repository.
    - the JavaScript operations on parsed values the source applies. *)

From S2P Require Import Prelude.

Inductive json :=
| JNull
| JBool (b : bool)
| JNum (n : Z)
| JStr (s : string)
| JArr (vs : list json)
| JObj (kvs : list (string * json)).

(** The exceptions the code can meet; [JsError m] is [new Error(m)]. *)
Inductive js_error := TypeError | SyntaxError | QuotaExceededError | JsError (msg : string).

(** A JavaScript computation that returns a value or throws. *)
Inductive js_result (A : Type) :=
| JsOk (a : A)
| JsThrow (e : js_error).
Arguments JsOk {A} _.
Arguments JsThrow {A} _.

Definition js_bind {A B} (c : js_result A) (k : A -> js_result B) : js_result B :=
  match c with
  | JsOk a => k a
  | JsThrow e => JsThrow e
  end.

(** [let! x := c in k]: run [c]; if it throws, the whole computation
    throws the same exception, else continue with its value. *)
Notation "'let!' x ':=' c 'in' k" := (js_bind c (fun x => k))
  (at level 10, x name, c at level 100, k at level 200) : heart_scope.

(** [JSON.stringify] and [JSON.parse]: [parse] returns [None] where
    [JSON.parse] throws a [SyntaxError].  The laws: parsing what was
    printed gives the value back, and the empty text is no JSON. *)
Class JsonCodec := {
  json_stringify : json -> string;
  json_parse : string -> option json;
  json_parse_stringify : forall v, json_parse (json_stringify v) = Some v;
  json_parse_empty : json_parse EmptyString = None
}.

(** SameValueZero of a string and a value: only an equal string. *)
Definition same_value_zero (x : string) (v : json) : bool :=
  match v with
  | JStr y => bool_decide (y = x)
  | _ => false
  end.

(** [v.includes(x)] for a string [x]: an array compares its elements with
    SameValueZero, a string looks for [x] as a substring; the other values
    have no [includes] method, and calling [undefined] throws. *)
Definition js_includes (v : json) (x : string) : js_result bool :=
  match v with
  | JArr vs => JsOk (existsb (same_value_zero x) vs)
  | JStr s => JsOk (bool_decide (is_Some (String.index 0 x s)))
  | _ => JsThrow TypeError
  end.

(** [v.push(x)] returns the new array (the source ignores [push]'s
    return value; the array it mutates is what the model returns). *)
Definition js_push (v : json) (x : json) : js_result json :=
  match v with
  | JArr vs => JsOk (JArr (vs ++ [x]))
  | _ => JsThrow TypeError
  end.

(** [v.unshift(x)]. *)
Definition js_unshift (v : json) (x : json) : js_result json :=
  match v with
  | JArr vs => JsOk (JArr (x :: vs))
  | _ => JsThrow TypeError
  end.

(** Property access [v.k]: throws on [null]; a parsed object has the
    last binding of a duplicated key; other values have no such own
    property ([None] is [undefined]). *)
Definition js_get (v : json) (k : string) : js_result (option json) :=
  match v with
  | JNull => JsThrow TypeError
  | JObj kvs => JsOk (snd <$> last (filter (fun kv => kv.1 = k) kvs))
  | _ => JsOk None
  end.

(** [vs.filter(f)] with a callback that may throw. *)
Fixpoint js_filter {A} (f : A -> js_result bool) (vs : list A) : js_result (list A) :=
  match vs with
  | [] => JsOk []
  | v :: vs =>
      let! b := f v in
      let! rest := js_filter f vs in
      JsOk (if b then v :: rest else rest)
  end.

(** ** Facts about the JavaScript operations *)

Lemma js_includes_arr_strs (l : list string) x :
  js_includes (JArr (JStr <$> l)) x = JsOk (includes l x).
Proof.
  simpl. f_equal. unfold includes.
  induction l as [|y l IH]; [done|]. cbn [fmap list_fmap existsb same_value_zero].
  rewrite IH. destruct (decide (y = x)) as [->|Hne].
  - rewrite (bool_decide_true (x = x)), (bool_decide_true (x ∈ x :: l)); set_solver.
  - rewrite (bool_decide_false (y = x)) by done. simpl.
    apply bool_decide_ext. set_solver.
Qed.

Lemma js_filter_total {A} (f : A -> bool) (vs : list A) :
  js_filter (fun v => JsOk (f v)) vs = JsOk (List.filter f vs).
Proof. induction vs as [|v vs IH]; [done|]. simpl. rewrite IH. by destruct (f v). Qed.

Lemma js_filter_ext {A} (f g : A -> js_result bool) (vs : list A) :
  (forall v, f v = g v) -> js_filter f vs = js_filter g vs.
Proof. intros Hfg. induction vs as [|v vs IH]; [done|]. simpl. by rewrite Hfg, IH. Qed.
