(* ===== verification/JsonText.v ===== *)
(** * JsonText: a JSON printer and parser, an instance of [JsonCodec]

    The browser's [JSON.stringify] and [JSON.parse] are not part of the
    repository; the theorems about local storage are stated against the
    [JsonCodec] interface.  This file gives the interface a concrete
    instance, so that those theorems apply at concrete stores: [print]
    writes the compact JSON text [JSON.stringify] writes (strings escape
    the double quote and the backslash only, numbers are integers), and [parse] reads it back with
    a recursive-descent parser on fuel.  [parse_print] is the roundtrip the
    interface asks for, by nested induction on [json]. *)

From Stdlib Require Import Ascii DecimalString DecimalN.
From S2P Require Import Prelude Json.

Local Open Scope char_scope.

Definition dq : ascii := "034".
Definition bsl : ascii := "092".

Definition is_digit (c : ascii) : bool :=
  Nat.leb 48 (nat_of_ascii c) && Nat.leb (nat_of_ascii c) 57.

(** The decimal digits of a natural number. *)
Definition digits (n : N) : list ascii :=
  String.list_ascii_of_string (NilEmpty.string_of_uint (N.to_uint n)).

(** Escape the characters that end or escape a string literal. *)
Fixpoint esc (l : list ascii) : list ascii :=
  match l with
  | [] => []
  | c :: l => if Ascii.eqb c dq || Ascii.eqb c bsl then bsl :: c :: esc l else c :: esc l
  end.

Definition print_str (s : string) : list ascii := dq :: esc (String.list_ascii_of_string s) ++ [dq].

(** The elements of an array after its [\[], and its closing bracket. *)
Fixpoint print_elems (p : json -> list ascii) (vs : list json) : list ascii :=
  match vs with
  | [] => ["]"]
  | w :: ws => p w ++ match ws with [] => ["]"] | _ => "," :: print_elems p ws end
  end.

(** The members of an object after its opening brace, and its closing
    brace. *)
Fixpoint print_members (p : json -> list ascii) (kvs : list (string * json)) : list ascii :=
  match kvs with
  | [] => ["}"]
  | (k, w) :: kws =>
      print_str k ++ ":" :: p w ++ match kws with [] => ["}"] | _ => "," :: print_members p kws end
  end.

Fixpoint print (v : json) : list ascii :=
  match v with
  | JNull => String.list_ascii_of_string "null"
  | JBool true => String.list_ascii_of_string "true"
  | JBool false => String.list_ascii_of_string "false"
  | JNum z => if bool_decide (z < 0)%Z then "-" :: digits (Z.to_N (- z)) else digits (Z.to_N z)
  | JStr s => print_str s
  | JArr vs => "[" :: print_elems print vs
  | JObj kvs => "{" :: print_members print kvs
  end.

(** Drop an expected prefix. *)
Fixpoint expect (w l : list ascii) : option (list ascii) :=
  match w, l with
  | [], _ => Some l
  | c :: w, d :: l => if Ascii.eqb c d then expect w l else None
  | _ :: _, [] => None
  end.

(** The body of a string literal, after its opening quote. *)
Fixpoint parse_str (l : list ascii) : option (list ascii * list ascii) :=
  match l with
  | [] => None
  | c :: r =>
      if Ascii.eqb c dq then Some ([], r)
      else if Ascii.eqb c bsl then
        match r with
        | c' :: r' =>
            if Ascii.eqb c' dq || Ascii.eqb c' bsl then
              '(s, r'') ← parse_str r'; Some (c' :: s, r'')
            else None
        | [] => None
        end
      else '(s, r') ← parse_str r; Some (c :: s, r')
  end.

(** Split off the leading run of digits. *)
Fixpoint span_digits (l : list ascii) : list ascii * list ascii :=
  match l with
  | c :: r => if is_digit c then let '(ds, r') := span_digits r in (c :: ds, r') else ([], l)
  | [] => ([], [])
  end.

(** A maximal run of digits, as a number. *)
Definition parse_nat (l : list ascii) : option (N * list ascii) :=
  match span_digits l with
  | ([], _) => None
  | (ds, r) => u ← NilEmpty.uint_of_string (String.string_of_list_ascii ds); Some (N.of_uint u, r)
  end.

(** Whether the input continues with [c]. *)
Definition next_is (c : ascii) (l : list ascii) : bool :=
  match l with d :: _ => Ascii.eqb d c | [] => false end.

(** The elements of a non-empty array, each read by [pv], up to the
    closing bracket; [g] bounds their number. *)
Fixpoint parse_elems (pv : list ascii -> option (json * list ascii)) (g : nat)
    (l : list ascii) : option (list json * list ascii) :=
  match g with
  | O => None
  | S g =>
      '(v, l1) ← pv l;
      match l1 with
      | c :: l2 =>
          if Ascii.eqb c "," then '(vs, l3) ← parse_elems pv g l2; Some (v :: vs, l3)
          else if Ascii.eqb c "]" then Some ([v], l2)
          else None
      | [] => None
      end
  end.

(** The members of a non-empty object, up to the closing brace. *)
Fixpoint parse_members (pv : list ascii -> option (json * list ascii)) (g : nat)
    (l : list ascii) : option (list (string * json) * list ascii) :=
  match g with
  | O => None
  | S g =>
      l0 ← expect [dq] l;
      '(k, l1) ← parse_str l0;
      l2 ← expect [":"] l1;
      '(v, l3) ← pv l2;
      match l3 with
      | c :: l4 =>
          if Ascii.eqb c "," then
            '(kvs, l5) ← parse_members pv g l4;
            Some ((String.string_of_list_ascii k, v) :: kvs, l5)
          else if Ascii.eqb c "}" then Some ([(String.string_of_list_ascii k, v)], l4)
          else None
      | [] => None
      end
  end.

Fixpoint parse_value (fuel : nat) (l : list ascii) : option (json * list ascii) :=
  match fuel with
  | O => None
  | S f =>
      match l with
      | [] => None
      | c :: r =>
          if Ascii.eqb c "n" then
            r' ← expect (String.list_ascii_of_string "ull") r; Some (JNull, r')
          else if Ascii.eqb c "t" then
            r' ← expect (String.list_ascii_of_string "rue") r; Some (JBool true, r')
          else if Ascii.eqb c "f" then
            r' ← expect (String.list_ascii_of_string "alse") r; Some (JBool false, r')
          else if Ascii.eqb c dq then
            '(s, r') ← parse_str r; Some (JStr (String.string_of_list_ascii s), r')
          else if Ascii.eqb c "-" then
            '(n, r') ← parse_nat r; Some (JNum (- Z.of_N n)%Z, r')
          else if is_digit c then
            '(n, r') ← parse_nat l; Some (JNum (Z.of_N n), r')
          else if Ascii.eqb c "[" then
            if next_is "]" r then Some (JArr [], tail r)
            else '(vs, r') ← parse_elems (parse_value f) (length r) r; Some (JArr vs, r')
          else if Ascii.eqb c "{" then
            if next_is "}" r then Some (JObj [], tail r)
            else '(kvs, r') ← parse_members (parse_value f) (length r) r; Some (JObj kvs, r')
          else None
      end
  end.

Definition parse (s : string) : option json :=
  let l := String.list_ascii_of_string s in
  match parse_value (S (length l)) l with
  | Some (v, []) => Some v
  | _ => None
  end.

(** Nesting depth: a bound on the fuel the parser needs. *)
Fixpoint depth (v : json) : nat :=
  match v with
  | JArr vs => S (foldr Nat.max 0 (map depth vs))
  | JObj kvs => S (foldr Nat.max 0 (map (fun kv => depth kv.2) kvs))
  | _ => O
  end.

(** The input ends a number: no digit follows. *)
Definition stop (l : list ascii) : Prop :=
  match l with c :: _ => is_digit c = false | [] => True end.

(** ** The roundtrip *)

(** Induction on [json] through the lists it nests. *)
Section JsonInd.
Variable P : json -> Prop.
Hypothesis Hnull : P JNull.
Hypothesis Hbool : forall b, P (JBool b).
Hypothesis Hnum : forall z, P (JNum z).
Hypothesis Hstr : forall s, P (JStr s).
Hypothesis Harr : forall vs, Forall P vs -> P (JArr vs).
Hypothesis Hobj : forall kvs, Forall (fun kv => P kv.2) kvs -> P (JObj kvs).

Fixpoint json_ind' (v : json) : P v :=
  match v with
  | JNull => Hnull
  | JBool b => Hbool b
  | JNum z => Hnum z
  | JStr s => Hstr s
  | JArr vs =>
      Harr vs ((fix go (vs : list json) : Forall P vs :=
                  match vs with
                  | [] => List.Forall_nil _
                  | w :: ws => List.Forall_cons _ w ws (json_ind' w) (go ws)
                  end) vs)
  | JObj kvs =>
      Hobj kvs ((fix go (kvs : list (string * json)) : Forall (fun kv => P kv.2) kvs :=
                   match kvs with
                   | [] => List.Forall_nil _
                   | kv :: kws => List.Forall_cons _ kv kws (json_ind' kv.2) (go kws)
                   end) kvs)
  end.
End JsonInd.

Lemma expect_app w rest : expect w (w ++ rest) = Some rest.
Proof. induction w as [|c w IH]; [done|]. cbn [expect app]. by rewrite Ascii.eqb_refl. Qed.

Lemma parse_str_esc l rest : parse_str (esc l ++ dq :: rest) = Some (l, rest).
Proof.
  induction l as [|c l IH]; cbn [esc app parse_str].
  - reflexivity.
  - destruct (Ascii.eqb c dq) eqn:E1, (Ascii.eqb c bsl) eqn:E2; cbn [orb app parse_str];
      cbn -[parse_str esc]; rewrite ?E1, ?E2; cbn -[parse_str esc]; by rewrite IH.
Qed.

Lemma digits_of_uint u :
  Forall (fun c => is_digit c = true)
    (String.list_ascii_of_string (NilEmpty.string_of_uint u)).
Proof. induction u; simpl; auto. Qed.

Lemma digits_nonempty n : digits n <> [].
Proof.
  unfold digits. destruct n as [|p]; [done|]. simpl.
  pose proof (DecimalPos.Unsigned.to_uint_nonnil p) as Hp.
  destruct (Pos.to_uint p); done.
Qed.

Lemma span_digits_app ds rest :
  Forall (fun c => is_digit c = true) ds -> stop rest ->
  span_digits (ds ++ rest) = (ds, rest).
Proof.
  intros Hds Hr. induction Hds as [|c ds Hc _ IH]; simpl.
  - destruct rest as [|c rest]; [done|]. simpl in Hr. simpl. by rewrite Hr.
  - rewrite Hc, IH. done.
Qed.

Lemma parse_nat_digits n rest : stop rest -> parse_nat (digits n ++ rest) = Some (n, rest).
Proof.
  intros Hr. unfold parse_nat.
  rewrite span_digits_app by (done || apply digits_of_uint).
  pose proof (digits_nonempty n) as Hne.
  destruct (digits n) as [|c ds] eqn:Hd; [done|]. rewrite <- Hd.
  unfold digits. rewrite String.string_of_list_ascii_of_string, NilEmpty.usu. simpl.
  by rewrite DecimalN.Unsigned.of_to.
Qed.

(** A digit is none of the characters that start other values. *)
Lemma digit_neq d c : is_digit d = true -> is_digit c = false -> Ascii.eqb d c = false.
Proof. intros Hd Hc. destruct (Ascii.eqb_spec d c); congruence. Qed.

(** A printed value starts with neither closing bracket. *)
Lemma print_head v rest c :
  c = "]" \/ c = "}" -> next_is c (print v ++ rest) = false.
Proof.
  intros Hc. destruct v as [| [] |z|s|vs|kvs]; try (destruct Hc; subst; reflexivity).
  simpl. case_bool_decide; [destruct Hc; subst; reflexivity|].
  pose proof (digits_of_uint (N.to_uint (Z.to_N z))) as Hd.
  pose proof (digits_nonempty (Z.to_N z)) as Hne. unfold digits in *.
  destruct (String.list_ascii_of_string _) as [|d ds]; [done|].
  apply Forall_cons in Hd as [Hd _]. simpl. apply digit_neq; [done|].
  destruct Hc; subst; reflexivity.
Qed.

Lemma print_elems_length p vs : length vs <= length (print_elems p vs).
Proof.
  induction vs as [|w ws IH]; simpl; [lia|].
  rewrite length_app. destruct ws; simpl in *; lia.
Qed.

Lemma print_members_length p kvs : length kvs <= length (print_members p kvs).
Proof.
  induction kvs as [|[k w] kws IH]; simpl; [lia|].
  unfold print_str. rewrite !length_app. simpl. rewrite length_app.
  destruct kws; simpl in *; lia.
Qed.

Lemma foldr_max_le (f : nat) (ds : list nat) :
  foldr Nat.max 0 ds < f -> Forall (fun d => d < f) ds.
Proof. induction ds; simpl; intros; constructor; [lia|]. apply IHds. lia. Qed.

(** The element parser reads back the printed elements. *)
Lemma parse_elems_print f vs rest :
  vs <> [] ->
  Forall (fun w => forall rest, stop rest -> parse_value f (print w ++ rest) = Some (w, rest)) vs ->
  forall g, length vs <= g ->
  parse_elems (parse_value f) g (print_elems print vs ++ rest) = Some (vs, rest).
Proof.
  intros Hne Hvs. induction Hvs as [|w ws Hw Hws IH]; [done|].
  intros [|g] Hg; simpl in Hg; [lia|]. cbn [print_elems parse_elems].
  destruct ws as [|w' ws'].
  - rewrite <- app_assoc, Hw by done. reflexivity.
  - rewrite <- app_assoc. simpl. rewrite Hw by done. cbn.
    rewrite IH by (done || simpl in *; lia). reflexivity.
Qed.

Lemma parse_members_print f kvs rest :
  kvs <> [] ->
  Forall (fun kv => forall rest, stop rest ->
            parse_value f (print kv.2 ++ rest) = Some (kv.2, rest)) kvs ->
  forall g, length kvs <= g ->
  parse_members (parse_value f) g (print_members print kvs ++ rest) = Some (kvs, rest).
Proof.
  intros Hne Hkvs. induction Hkvs as [|[k w] kws Hw Hkws IH]; [done|].
  intros [|g] Hg; simpl in Hg; [lia|]. cbn [print_members parse_members].
  unfold print_str. rewrite <- !app_assoc. cbn [app expect].
  rewrite Ascii.eqb_refl. cbn [mbind option_bind].
  rewrite <- !app_assoc. cbn [app]. rewrite parse_str_esc. cbn [mbind option_bind expect].
  rewrite Ascii.eqb_refl. cbn [mbind option_bind].
  simpl in Hw. rewrite String.string_of_list_ascii_of_string.
  destruct kws as [|kv' kws'].
  - rewrite Hw by done. reflexivity.
  - simpl. rewrite Hw by done. cbn.
    rewrite IH by (done || simpl in *; lia). reflexivity.
Qed.

Lemma members_next p k w kws rest :
  next_is "}" (print_members p ((k, w) :: kws) ++ rest) = false.
Proof. reflexivity. Qed.

(** The fuel bound gives each nested value the fuel it needs. *)
Lemma nested_fuel {A} (sel : A -> json) (xs : list A) f :
  foldr Nat.max 0 (map (fun x => depth (sel x)) xs) < f ->
  Forall (fun x => forall f rest, depth (sel x) < f -> stop rest ->
            parse_value f (print (sel x) ++ rest) = Some (sel x, rest)) xs ->
  Forall (fun x => forall rest, stop rest ->
            parse_value f (print (sel x) ++ rest) = Some (sel x, rest)) xs.
Proof.
  intros Hd Hxs. apply foldr_max_le, Forall_map in Hd.
  eapply Forall_impl; [apply Forall_and; split; [exact Hd|exact Hxs]|].
  intros x [Hx Hp] rest Hr. by apply Hp.
Qed.

(** Parsing what was printed, followed by input that does not continue a
    number, reads the value back and leaves that input. *)
Lemma parse_print_gen v : forall f rest, depth v < f -> stop rest ->
  parse_value f (print v ++ rest) = Some (v, rest).
Proof.
  induction v as [| b | z | s | vs IH | kvs IH] using json_ind';
    intros [|f] rest Hd Hr; simpl in Hd; try lia.
  - reflexivity.
  - by destruct b.
  - cbn [print]. case_bool_decide.
    + cbn -[parse_nat digits]. rewrite parse_nat_digits by done. cbn.
      rewrite Z2N.id, Z.opp_involutive by lia. done.
    + pose proof (parse_nat_digits (Z.to_N z) rest Hr) as Hp.
      pose proof (digits_of_uint (N.to_uint (Z.to_N z))) as Hdig.
      pose proof (digits_nonempty (Z.to_N z)) as Hne.
      fold (digits (Z.to_N z)) in Hdig.
      destruct (digits (Z.to_N z)) as [|d ds]; [done|].
      apply Forall_cons in Hdig as [Hdig _].
      cbn [app parse_value].
      rewrite !(digit_neq d) by (done || reflexivity). rewrite Hdig.
      change (d :: ds ++ rest) with ((d :: ds) ++ rest). rewrite Hp. cbn. rewrite Z2N.id by lia. done.
  - unfold print, print_str. cbn [app]. rewrite <- app_assoc. cbn -[parse_str esc].
    rewrite parse_str_esc. cbn. by rewrite String.string_of_list_ascii_of_string.
  - cbn -[print_elems parse_elems]. change (is_digit "[") with false. cbn iota.
    destruct vs as [|w ws]; [reflexivity|].
    cbn [print_elems]. rewrite <- app_assoc, print_head by auto.
    rewrite (app_assoc (print w)). change (print w ++ ?x) with (print_elems print (w :: ws)).
    rewrite parse_elems_print; [done|done| |].
    + assert (foldr Nat.max 0 (map depth (w :: ws)) < f) by lia. by apply (nested_fuel id).
    + rewrite length_app. pose proof (print_elems_length print (w :: ws)). lia.
  - cbn -[print_members parse_members]. change (is_digit "{") with false. cbn iota.
    destruct kvs as [|[k w] kws]; [reflexivity|].
    rewrite members_next. cbn iota.
    rewrite parse_members_print; [done|done| |].
    + assert (foldr Nat.max 0 (map (fun kv => depth kv.2) ((k, w) :: kws)) < f) by lia.
      by apply (nested_fuel snd).
    + rewrite length_app. pose proof (print_members_length print ((k, w) :: kws)). lia.
Qed.

Lemma depth_elems vs :
  Forall (fun w => depth w <= length (print w)) vs ->
  foldr Nat.max 0 (map depth vs) <= length (print_elems print vs).
Proof.
  induction 1 as [|w ws Hw _ IH]; simpl; [lia|].
  rewrite length_app. destruct ws; simpl in *; lia.
Qed.

Lemma depth_members kvs :
  Forall (fun kv => depth kv.2 <= length (print kv.2)) kvs ->
  foldr Nat.max 0 (map (fun kv => depth kv.2) kvs) <= length (print_members print kvs).
Proof.
  induction 1 as [|[k w] kws Hw _ IH]; simpl; [lia|].
  unfold print_str. rewrite !length_app. simpl in *. rewrite !length_app.
  destruct kws; simpl in *; lia.
Qed.

(** The text of a value is longer than its nesting: the parser's fuel
    [S (length l)] is enough. *)
Lemma depth_print v : depth v <= length (print v).
Proof.
  induction v as [| | | | vs IH | kvs IH] using json_ind'; simpl; try lia.
  - specialize (depth_elems vs IH). lia.
  - specialize (depth_members kvs IH). lia.
Qed.

(** The roundtrip: parsing the printed text gives the value back. *)
Theorem parse_print v : parse (String.string_of_list_ascii (print v)) = Some v.
Proof.
  unfold parse. rewrite String.list_ascii_of_string_of_list_ascii.
  rewrite <- (app_nil_r (print v)) at 2.
  rewrite parse_print_gen; [done| |done].
  pose proof (depth_print v). lia.
Qed.

#[export] Instance json_text_codec : JsonCodec := {|
  json_stringify v := String.string_of_list_ascii (print v);
  json_parse := parse;
  json_parse_stringify := parse_print;
  json_parse_empty := eq_refl
|}.
