(* ===== verification/LocalStore.v ===== *)
(** * LocalStore: browser local storage, lib/storage.ts and the
    claimed-placeholder list of components/ItemGrid.tsx

    [localStorage] is a map from string keys to string values with a
    quota: [setItem] throws [QuotaExceededError] when the stored keys and
    values would exceed it.  The quota is the section variable [quota]
    (browsers allow about five million characters per origin).  Values
    are JSON text, written with [json_stringify] and read with
    [json_parse] of the [JsonCodec] interface; what the code then does
    with a parsed value is JavaScript's behaviour on it, exceptions
    included ([Json.v]).

    Two clients use it:
    - lib/storage.ts keeps a list of [DonatedItem] objects under
      ["donatedItems"] ([getDonatedItems], [saveDonatedItem],
      [deleteDonatedItem]); no component calls these three functions any
      more (only [fileToBase64] of that file is still imported);
    - components/ItemGrid.tsx keeps the ids of claimed placeholder items
      under ["heartshare_claimed_placeholders"]
      ([getClaimedPlaceholderIds], [addClaimedPlaceholderId]). *)

From S2P Require Import Prelude Types Json.

Abbreviation Store := (gmap string string).

Section LocalStore.
Context `{JsonCodec}.
Variable quota : nat.

(** Characters held by the store, keys and values. *)
Definition store_size (st : Store) : nat :=
  map_fold (fun k v acc => String.length k + String.length v + acc) 0 st.

(** [localStorage.getItem(k)]: [None] is [null]. *)
Definition getItem (k : string) (st : Store) : option string := st !! k.

(** [localStorage.setItem(k, v)]. *)
Definition setItem (k v : string) (st : Store) : js_result Store :=
  if decide (store_size (<[k:=v]> st) <= quota) then JsOk (<[k:=v]> st)
  else JsThrow QuotaExceededError.

(** The read both files use:
    [try { const s = localStorage.getItem(k); return s ? JSON.parse(s) : []; }
     catch { return []; }]: a missing or empty value and a parse error all
    read as the empty array. *)
Definition readJsonArray (k : string) (st : Store) : json :=
  match getItem k st with
  | None | Some EmptyString => JArr []
  | Some s => default (JArr []) (json_parse s)
  end.

(** *** lib/storage.ts *)

Definition STORAGE_KEY : string := "donatedItems".

(** [JSON.stringify(item)] of a [DonatedItem] object, its properties in
    the order of the interface.  [createdAt] is the integer timestamp of
    [Types.v], written as a number where the code writes its ISO string. *)
Definition encodeDonatedItem (it : DonatedItem) : json :=
  JObj [("id", JStr (di_id it)); ("itemName", JStr (itemName it));
        ("description", JStr (description it)); ("category", JStr (category it));
        ("condition", JStr (condition it)); ("location", JStr (location it));
        ("contactEmail", JStr (contactEmail it)); ("imageBase64", JStr (imageBase64 it));
        ("createdAt", JNum (createdAt it))].

Definition getDonatedItems (st : Store) : json := readJsonArray STORAGE_KEY st.

(** [saveDonatedItem]: unshift and write back; any exception becomes
    [Error("Failed to save donation")]. *)
Definition saveDonatedItem (it : DonatedItem) (st : Store) : js_result Store :=
  match (let! items := js_unshift (getDonatedItems st) (encodeDonatedItem it) in
         setItem STORAGE_KEY (json_stringify items) st) with
  | JsOk st' => JsOk st'
  | JsThrow _ => JsThrow (JsError "Failed to save donation")
  end.

(** [item.id !== itemId] on a parsed element. *)
Definition id_differs (itemId : string) (item : json) : js_result bool :=
  let! p := js_get item "id" in
  JsOk (match p with Some (JStr s) => bool_decide (s <> itemId) | _ => true end).

(** [items.filter(f)]: only arrays have [filter]. *)
Definition js_array_filter (f : json -> js_result bool) (v : json) : js_result json :=
  match v with
  | JArr vs => let! vs' := js_filter f vs in JsOk (JArr vs')
  | _ => JsThrow TypeError
  end.

(** [deleteDonatedItem]: [true] with the new store, or [false] and the
    store unchanged when anything threw. *)
Definition deleteDonatedItem (itemId : string) (st : Store) : bool * Store :=
  match (let! filtered := js_array_filter (id_differs itemId) (getDonatedItems st) in
         setItem STORAGE_KEY (json_stringify filtered) st) with
  | JsOk st' => (true, st')
  | JsThrow _ => (false, st)
  end.

(** *** The claimed-placeholder list of components/ItemGrid.tsx *)

Definition CLAIMED_PLACEHOLDERS_KEY : string := "heartshare_claimed_placeholders".

Definition getClaimedPlaceholderIds (st : Store) : json :=
  readJsonArray CLAIMED_PLACEHOLDERS_KEY st.

(** [addClaimedPlaceholderId]: not inside a [try], so its exceptions
    reach the caller. *)
Definition addClaimedPlaceholderId (pid : string) (st : Store) : js_result Store :=
  let claimed := getClaimedPlaceholderIds st in
  let! present := js_includes claimed pid in
  if present then JsOk st
  else
    let! claimed' := js_push claimed (JStr pid) in
    setItem CLAIMED_PLACEHOLDERS_KEY (json_stringify claimed') st.

(** The store holds the claimed ids [l] as a JSON array of strings (or
    nothing, which reads as the empty array). *)
Definition claims_stored (st : Store) (l : list string) : Prop :=
  (l = [] /\ st !! CLAIMED_PLACEHOLDERS_KEY = None) \/
  st !! CLAIMED_PLACEHOLDERS_KEY = Some (json_stringify (JArr (JStr <$> l))).
End LocalStore.

(** ** Properties of local storage *)

Section LocalStoreFacts.
Context `{JsonCodec}.
Variable quota : nat.

(** The printed text of a value is never the empty string. *)
Lemma json_stringify_nonempty v : json_stringify v <> EmptyString.
Proof.
  intros E. pose proof (json_parse_stringify v) as Hp.
  rewrite E, json_parse_empty in Hp. discriminate.
Qed.

(** What was stored by [JSON.stringify] reads back as the value. *)
Lemma readJsonArray_stored k st v :
  st !! k = Some (json_stringify v) -> readJsonArray k st = v.
Proof.
  intros Hk. unfold readJsonArray, getItem. rewrite Hk.
  pose proof (json_stringify_nonempty v) as Hne.
  destruct (json_stringify v) as [|a s'] eqn:E; [done|].
  rewrite <- E, json_parse_stringify. done.
Qed.

Lemma claims_stored_read st l :
  claims_stored st l -> getClaimedPlaceholderIds st = JArr (JStr <$> l).
Proof.
  intros [[-> Hn]|Hs].
  - unfold getClaimedPlaceholderIds, readJsonArray, getItem. by rewrite Hn.
  - by apply readJsonArray_stored.
Qed.

Lemma claims_stored_insert st l :
  claims_stored (<[CLAIMED_PLACEHOLDERS_KEY := json_stringify (JArr (JStr <$> l))]> st) l.
Proof. right. apply lookup_insert_eq. Qed.

(** The stored claims after [addClaimedPlaceholderId pid]. *)
Definition claims_after (l : list string) (pid : string) : list string :=
  if includes l pid then l else l ++ [pid].

(** C7: claiming a placeholder persists its id.  From a store holding the
    claimed ids [l], [addClaimedPlaceholderId pid] succeeds when the quota
    allows the write, and the store then holds [l] with [pid] appended
    unless it was already there. *)
Theorem addClaimedPlaceholderId_persists st l pid :
  claims_stored st l ->
  store_size (<[CLAIMED_PLACEHOLDERS_KEY :=
                json_stringify (JArr (JStr <$> l ++ [pid]))]> st) <= quota ->
  exists st', addClaimedPlaceholderId quota pid st = JsOk st' /\
              claims_stored st' (claims_after l pid).
Proof.
  intros Hs Hq. unfold addClaimedPlaceholderId, claims_after.
  rewrite (claims_stored_read st l Hs), js_includes_arr_strs. simpl.
  destruct (includes l pid); simpl; [by eexists|].
  replace ((JStr <$> l) ++ [JStr pid]) with (JStr <$> l ++ [pid]) by (by rewrite fmap_app).
  unfold setItem. rewrite decide_True by done.
  eexists. split; [done|]. apply claims_stored_insert.
Qed.

(** C8: a full store loses the claim.  When the write of the new list
    exceeds the quota, [addClaimedPlaceholderId] throws
    [QuotaExceededError] and nothing is stored. *)
Theorem addClaimedPlaceholderId_quota st l pid :
  claims_stored st l -> pid ∉ l ->
  quota < store_size (<[CLAIMED_PLACEHOLDERS_KEY :=
                        json_stringify (JArr (JStr <$> l ++ [pid]))]> st) ->
  addClaimedPlaceholderId quota pid st = JsThrow QuotaExceededError.
Proof.
  intros Hs Hpid Hq. unfold addClaimedPlaceholderId.
  rewrite (claims_stored_read st l Hs), js_includes_arr_strs.
  apply includes_false in Hpid. rewrite Hpid. simpl.
  replace ((JStr <$> l) ++ [JStr pid]) with (JStr <$> l ++ [pid]) by (by rewrite fmap_app).
  unfold setItem. rewrite decide_False; [done|]. lia.
Qed.

(** C9: a stored value that parses to something other than an array or
    a string (a number, [null], an object, a boolean) makes
    [addClaimedPlaceholderId] throw a [TypeError]: [claimed.includes] is
    not a function. *)
Theorem addClaimedPlaceholderId_corrupt st s v pid :
  st !! CLAIMED_PLACEHOLDERS_KEY = Some s -> s <> EmptyString ->
  json_parse s = Some v ->
  (forall vs, v <> JArr vs) -> (forall t, v <> JStr t) ->
  addClaimedPlaceholderId quota pid st = JsThrow TypeError.
Proof.
  intros Hk Hne Hp Harr Hstr. unfold addClaimedPlaceholderId, getClaimedPlaceholderIds,
    readJsonArray, getItem.
  rewrite Hk. destruct s as [|a s']; [done|]. rewrite Hp. simpl.
  destruct v; try done; [by destruct (Hstr s)|by destruct (Harr vs)].
Qed.
End LocalStoreFacts.
