(* ===== verification/Database.v ===== *)
(** * Database: the [donated_items] table and the client of lib/database.ts

    [Module Server] is the hosted table as the client's queries use it: the
    rows with their primary key [id], the evaluation of each query the
    client sends (select ordered by [created_at] descending, insert with a
    server-chosen id and timestamp, delete where [id] equals a value) and
    the change notifications each committed write publishes on the realtime
    channel.  The server code is not part of the repository; its behaviour
    here is the documented behaviour of the queries (Postgres with the
    realtime publication), marked spec_modelled in the manifest.

    [Module Client] is lib/database.ts: each exported function, as the
    function from the raw [{ data, error }] response of the query to the
    value it returns, with its error branch, and the dispatch of the
    channel's two event kinds to the two callbacks of
    [subscribeToItemChanges]. *)

From stdpp Require Import sorting.
From S2P Require Import Prelude Types.

(** The [{ data, error }] pair every query resolves to. *)
Record response (A : Type) := mkResponse { data : option A; error : option string }.
Arguments mkResponse {A} _ _.
Arguments data {A} _.
Arguments error {A} _.

Definition ok {A} (a : A) : response A := mkResponse (Some a) None.
Definition failed {A} (msg : string) : response A := mkResponse None (Some msg).

(** The argument of [saveDonatedItemToDB]: the columns the client sets. *)
Record NewItem := mkNewItem {
  ni_name : string;
  ni_description : string;
  ni_category : string;
  ni_condition : string;
  ni_location : string;
  ni_contact_email : string;
  ni_image_url : string
}.

(** A [postgres_changes] notification: [payload.new] of an INSERT,
    [payload.old.id] of a DELETE. *)
Inductive change :=
| ChInsert (new : DatabaseDonatedItem)
| ChDelete (old_id : string).

Module Server.

(** The rows of the table, in storage order.  The primary key makes the
    ids unique: that is the table's invariant. *)
Definition table_wf (rows : list DatabaseDonatedItem) : Prop := NoDup (ids rows).

(** [ORDER BY created_at DESC]: the order the result must have. *)
Definition newer_first (a b : DatabaseDonatedItem) : Prop := (created_at b <= created_at a)%Z.

#[export] Instance newer_first_dec : RelDecision newer_first.
Proof. intros a b. unfold newer_first. apply _. Defined.

(** What a reply to [select('*').order('created_at', {ascending:false})]
    may be: the rows, in an order sorted by [created_at] descending (Postgres
    leaves the order of equal timestamps unspecified). *)
Definition select_reply (rows reply : list DatabaseDonatedItem) : Prop :=
  reply ≡ₚ rows /\ Sorted newer_first reply.

(** One such order, computed: a stable merge sort. *)
Definition select_ordered (rows : list DatabaseDonatedItem) : list DatabaseDonatedItem :=
  merge_sort newer_first rows.

(** The row [insert([item]).select().single()] creates: [id] and
    [created_at] are the column defaults, chosen by the server. *)
Definition new_row (fresh : string) (now : Z) (item : NewItem) : DatabaseDonatedItem := {|
  id := fresh;
  name := ni_name item;
  row_description := Some (ni_description item);
  row_category := ni_category item;
  row_condition := ni_condition item;
  row_location := ni_location item;
  contact_email := ni_contact_email item;
  image_url := Some (ni_image_url item);
  created_at := now
|}.

(** Execute the insert: a duplicate key is a unique violation, which
    aborts the statement. *)
Definition insert (fresh : string) (now : Z) (item : NewItem)
    (rows : list DatabaseDonatedItem)
    : response DatabaseDonatedItem * list DatabaseDonatedItem * list change :=
  if decide (fresh ∈ ids rows) then
    (failed "duplicate key value violates unique constraint", rows, [])
  else
    let r := new_row fresh now item in
    (ok r, rows ++ [r], [ChInsert r]).

(** Execute [delete().eq('id', k)]: every matching row goes and each one
    publishes a DELETE notification; no match is not an error. *)
Definition delete (k : string) (rows : list DatabaseDonatedItem)
    : response unit * list DatabaseDonatedItem * list change :=
  (ok tt, rows ⊖ k,
   map (fun r => ChDelete (id r)) (filter (fun r => get_id r = k) rows)).

(** The effect of a notification on the table it came from. *)
Definition apply_to_table (ch : change) (rows : list DatabaseDonatedItem)
    : list DatabaseDonatedItem :=
  match ch with
  | ChInsert r => rows ++ [r]
  | ChDelete k => rows ⊖ k
  end.
End Server.

Module Client.

(** [getDonatedItemsFromDB]: an error is logged and shown as no items. *)
Definition getDonatedItemsFromDB (res : response (list DatabaseDonatedItem))
    : list DatabaseDonatedItem :=
  match error res with
  | Some _ => []
  | None => default [] (data res)
  end.

(** The [{ data, error }] object [saveDonatedItemToDB] resolves to. *)
Record SaveResult := mkSaveResult {
  saved : option DatabaseDonatedItem;
  save_error : option string
}.

(** [saveDonatedItemToDB]: the error becomes [new Error(error.message)]. *)
Definition saveDonatedItemToDB (res : response DatabaseDonatedItem) : SaveResult :=
  match error res with
  | Some msg => mkSaveResult None (Some msg)
  | None => mkSaveResult (data res) None
  end.

(** [deleteDonatedItemFromDB]: [false] on error, [true] otherwise. *)
Definition deleteDonatedItemFromDB (res : response unit) : bool :=
  match error res with
  | Some _ => false
  | None => true
  end.

(** The channel of [subscribeToItemChanges]: an INSERT notification goes
    to [onInsert] with [payload.new], a DELETE one to [onDelete] with
    [payload.old.id]. *)
Definition subscribeToItemChanges {S : Type}
    (onInsert : DatabaseDonatedItem -> S -> S) (onDelete : string -> S -> S)
    (ch : change) (s : S) : S :=
  match ch with
  | ChInsert r => onInsert r s
  | ChDelete k => onDelete k s
  end.
End Client.

(** ** Properties of the server model *)

Module ServerFacts.
Import Server.

(** Replaying a list of notifications on a table. *)
Definition replay (chs : list change) (rows : list DatabaseDonatedItem) :=
  foldl (fun r ch => apply_to_table ch r) rows chs.

Lemma replay_app chs1 chs2 rows :
  replay (chs1 ++ chs2) rows = replay chs2 (replay chs1 rows).
Proof. unfold replay. apply foldl_app. Qed.

(** The merge sort computes a legal reply to the ordered select. *)
Lemma select_ordered_reply rows : select_reply rows (select_ordered rows).
Proof.
  split; [apply merge_sort_Permutation|].
  apply Sorted_merge_sort. intros a b. unfold newer_first. lia.
Qed.

Lemma insert_fresh fresh now item rows :
  fresh ∉ ids rows ->
  insert fresh now item rows =
    (ok (new_row fresh now item), rows ++ [new_row fresh now item],
     [ChInsert (new_row fresh now item)]).
Proof. intros Hf. unfold insert. by rewrite decide_False. Qed.

Lemma delete_rows_notin k rows : k ∉ ids rows ->
  filter (fun r => get_id r = k) rows = [].
Proof.
  induction rows as [|r rows IH]; intros Hk; [done|].
  rewrite ids_cons, elem_of_cons in Hk.
  rewrite filter_cons_False by (cbn; naive_solver). naive_solver.
Qed.

(** Deleting the same id again and again is deleting it once. *)
Lemma replay_deletes k (rs rows : list DatabaseDonatedItem) :
  Forall (fun r => get_id r = k) rs ->
  replay (map (fun r => ChDelete (id r)) rs) (rows ⊖ k) = rows ⊖ k.
Proof.
  intros Hall. induction Hall as [|r rs Hr _ IH]; [done|].
  simpl. change (id r) with (get_id r). rewrite Hr, remove_id_idem. exact IH.
Qed.
End ServerFacts.
