(* ===== verification/ItemGrid.v ===== *)
(** * ItemGrid: components/ItemGrid.tsx with components/ClaimDialog.tsx

    [GridState] is the component's React state, one field per [useState].
    Each handler is a function on it, composed of the state setters it
    calls in the order it calls them (the setters here are plain or
    functional updates of distinct fields, so React's batching does not
    change the result).  The state the handlers read from their closure
    ([claimTarget] in [handleConfirmClaim]) is the state at the click.

    A handler that [await]s the database cannot finish at once: it returns
    a [Task], the request it sent with the continuation the rest of its
    body is, and [Sync.v] runs the continuation when the reply arrives.
    [addClaimedPlaceholderId] is not inside a [try]: when it throws, the
    [async] handler's promise rejects and the rest of its body does not
    run; [HandlerResult] records that.

    The dialogs: [ClaimConfirmDialog] is a Radix [AlertDialog] whose
    action button runs [onConfirm] and then closes the dialog
    ([onOpenChange(false)], here [setConfirmOpen(false)]); its cancel
    button only closes it.  [ClaimSuccessDialog] calls [handleSuccessClose]
    when closed.  [ui_event] lists what the user can click and
    [ui_enabled] when it is on the screen and not behind a modal. *)

From S2P Require Import Prelude Types Json LocalStore Database.

Inductive ClaimType := CTDonated | CTPlaceholder.

(** [claimTarget]: [{ type, id, name, email }]. *)
Record ClaimTarget := mkTarget {
  ct_type : ClaimType;
  ct_id : string;
  ct_name : string;
  ct_email : string
}.

Record GridState := mkGrid {
  donatedItems : list DatabaseDonatedItem;
  placeholderItems : list PlaceholderItem;
  isLoading : bool;
  confirmOpen : bool;
  successOpen : bool;
  claimTarget : option ClaimTarget
}.

(** The state setters. *)
Definition setDonatedItems (f : list DatabaseDonatedItem -> list DatabaseDonatedItem)
    (g : GridState) : GridState :=
  mkGrid (f (donatedItems g)) (placeholderItems g) (isLoading g) (confirmOpen g)
    (successOpen g) (claimTarget g).
Definition setPlaceholderItems (f : list PlaceholderItem -> list PlaceholderItem)
    (g : GridState) : GridState :=
  mkGrid (donatedItems g) (f (placeholderItems g)) (isLoading g) (confirmOpen g)
    (successOpen g) (claimTarget g).
Definition setIsLoading (b : bool) (g : GridState) : GridState :=
  mkGrid (donatedItems g) (placeholderItems g) b (confirmOpen g) (successOpen g) (claimTarget g).
Definition setConfirmOpen (b : bool) (g : GridState) : GridState :=
  mkGrid (donatedItems g) (placeholderItems g) (isLoading g) b (successOpen g) (claimTarget g).
Definition setSuccessOpen (b : bool) (g : GridState) : GridState :=
  mkGrid (donatedItems g) (placeholderItems g) (isLoading g) (confirmOpen g) b (claimTarget g).
Definition setClaimTarget (t : option ClaimTarget) (g : GridState) : GridState :=
  mkGrid (donatedItems g) (placeholderItems g) (isLoading g) (confirmOpen g) (successOpen g) t.

(** A request a handler awaits, with the rest of its body. *)
Inductive Task :=
| TSelect (k : list DatabaseDonatedItem -> GridState -> GridState)
| TDelete (target : string) (k : bool -> GridState -> GridState).

(** What a handler leaves: the state, the store, the requests in flight
    and, when its promise rejected, the exception. *)
Record HandlerResult := mkResult {
  res_grid : GridState;
  res_store : Store;
  res_tasks : list Task;
  res_rejected : option js_error
}.

Section ItemGrid.
Context `{JsonCodec}.
Variable quota : nat.

(** The [useState] initializer of [placeholderItems]: the catalog without
    the claimed ids; [.includes] may throw, which fails the render. *)
Definition initialPlaceholderItems (st : Store) : js_result (list PlaceholderItem) :=
  let claimedIds := getClaimedPlaceholderIds st in
  js_filter (fun item => let! c := js_includes claimedIds (ph_id item) in JsOk (negb c))
    INITIAL_PLACEHOLDER_ITEMS.

(** The first render. *)
Definition initGrid (st : Store) : js_result GridState :=
  let! ph := initialPlaceholderItems st in
  JsOk (mkGrid [] ph true false false None).

(** The end of [fetchItems], after [await getDonatedItemsFromDB()]. *)
Definition fetchItemsDone (items : list DatabaseDonatedItem) (g : GridState) : GridState :=
  setIsLoading false (setDonatedItems (fun _ => items) g).

(** The [useEffect] on mount: start [fetchItems] (its request is the
    task) and open the channel (the caller subscribes [onInsert] and
    [onDelete]). *)
Definition mount : list Task := [TSelect fetchItemsDone].

(** The two callbacks given to [subscribeToItemChanges]. *)
Definition onInsert (newItem : DatabaseDonatedItem) (g : GridState) : GridState :=
  setDonatedItems (fun prev => newItem :: prev) g.

Definition onDelete (deletedId : string) (g : GridState) : GridState :=
  setDonatedItems (fun prev => prev ⊖ deletedId) g.

Definition handleClaimAttempt (ty : ClaimType) (cid name email : string)
    (g : GridState) : GridState :=
  setConfirmOpen true (setClaimTarget (Some (mkTarget ty cid name email)) g).

(** The tail of [handleConfirmClaim]: close the confirmation, show the
    success dialog. *)
Definition closeConfirmShowSuccess (g : GridState) : GridState :=
  setSuccessOpen true (setConfirmOpen false g).

(** [handleConfirmClaim], with [claimTarget] read from the state of the
    click.  A donated item: send the delete and await it; the reply's
    [success] is not looked at.  A placeholder: persist its id, then drop
    it from the list. *)
Definition handleConfirmClaim (g : GridState) (st : Store) : HandlerResult :=
  match claimTarget g with
  | None => mkResult g st [] None
  | Some t =>
      match ct_type t with
      | CTDonated =>
          mkResult g st [TDelete (ct_id t) (fun _success => closeConfirmShowSuccess)] None
      | CTPlaceholder =>
          match addClaimedPlaceholderId quota (ct_id t) st with
          | JsThrow e => mkResult g st [] (Some e)
          | JsOk st' =>
              mkResult
                (closeConfirmShowSuccess
                   (setPlaceholderItems (fun prev => prev ⊖ ct_id t) g))
                st' [] None
          end
      end
  end.

Definition handleSuccessClose (g : GridState) : GridState :=
  setClaimTarget None (setSuccessOpen false g).

(** What the user can do on the page. *)
Inductive ui_event :=
| ClickClaimDonated (item : DatabaseDonatedItem)
| ClickClaimPlaceholder (item : PlaceholderItem)
| ClickConfirm
| ClickCancel
| CloseSuccess.

(** The email a placeholder card claims with. *)
Definition PLACEHOLDER_EMAIL : string := "donor@heartshare.example.com".

(** A card's button is on the screen when the list has loaded and no
    modal dialog covers the page; a dialog's buttons while it is open. *)
Definition no_modal (g : GridState) : bool := negb (confirmOpen g) && negb (successOpen g).

Definition ui_enabled (e : ui_event) (g : GridState) : Prop :=
  match e with
  | ClickClaimDonated item => item ∈ donatedItems g /\ isLoading g = false /\ no_modal g = true
  | ClickClaimPlaceholder item =>
      item ∈ placeholderItems g /\ isLoading g = false /\ no_modal g = true
  | ClickConfirm | ClickCancel => confirmOpen g = true
  | CloseSuccess => successOpen g = true
  end.

(** The handler each click runs.  The claim buttons pass the card's
    fields as [ItemCard]/[PlaceholderCard] render them; the action button
    of the confirmation runs [handleConfirmClaim] and then closes the
    dialog. *)
Definition ui_handle (e : ui_event) (g : GridState) (st : Store) : HandlerResult :=
  match e with
  | ClickClaimDonated item =>
      let mapped := toDonatedItem item in
      mkResult (handleClaimAttempt CTDonated (di_id mapped) (itemName mapped)
                  (contactEmail mapped) g) st [] None
  | ClickClaimPlaceholder item =>
      mkResult (handleClaimAttempt CTPlaceholder (ph_id item) (ph_name item)
                  PLACEHOLDER_EMAIL g) st [] None
  | ClickConfirm =>
      let r := handleConfirmClaim g st in
      mkResult (setConfirmOpen false (res_grid r)) (res_store r) (res_tasks r)
        (res_rejected r)
  | ClickCancel => mkResult (setConfirmOpen false g) st [] None
  | CloseSuccess => mkResult (handleSuccessClose g) st [] None
  end.

(** The email the success dialog shows: [claimTarget?.email], or the empty string. *)
Definition shownEmail (g : GridState) : string :=
  match claimTarget g with Some t => ct_email t | None => EmptyString end.
End ItemGrid.

(** ** Handler lemmas *)

Section ItemGridFacts.
Context `{JsonCodec}.
Variable quota : nat.

Lemma closeConfirmShowSuccess_items g :
  donatedItems (closeConfirmShowSuccess g) = donatedItems g.
Proof. reflexivity. Qed.

(** The user's clicks never change the list of donated items: only the
    channel and the initial fetch do. *)
Lemma ui_handle_items e g st :
  donatedItems (res_grid (ui_handle quota e g st)) = donatedItems g.
Proof.
  destruct e; try reflexivity. simpl. unfold handleConfirmClaim.
  destruct (claimTarget g) as [t|]; [|done].
  destruct (ct_type t); [done|].
  by destruct (addClaimedPlaceholderId quota (ct_id t) st).
Qed.

(** The only request a click sends is the claim's delete, whose
    continuation closes the confirmation and opens the success dialog. *)
Lemma ui_handle_tasks e g st :
  Forall (fun t => exists target, t = TDelete target (fun _ => closeConfirmShowSuccess))
    (res_tasks (ui_handle quota e g st)).
Proof.
  destruct e; try constructor. simpl. unfold handleConfirmClaim.
  destruct (claimTarget g) as [t|]; [|constructor].
  destruct (ct_type t); [repeat constructor; eauto|].
  destruct (addClaimedPlaceholderId quota (ct_id t) st); constructor.
Qed.

(** Confirming the claim of a donated item only sends the delete. *)
Lemma confirm_donated g st t :
  claimTarget g = Some t -> ct_type t = CTDonated ->
  handleConfirmClaim quota g st =
  mkResult g st [TDelete (ct_id t) (fun _ => closeConfirmShowSuccess)] None.
Proof. intros Ht Hty. unfold handleConfirmClaim. by rewrite Ht, Hty. Qed.

(** The first render under a store holding the claimed ids [l]: the
    catalog without them. *)
Lemma initialPlaceholderItems_stored st l :
  claims_stored st l ->
  initialPlaceholderItems st =
    JsOk (List.filter (fun p => negb (includes l (ph_id p))) INITIAL_PLACEHOLDER_ITEMS).
Proof.
  intros Hs. unfold initialPlaceholderItems. rewrite (claims_stored_read st l Hs).
  rewrite <- js_filter_total. apply js_filter_ext. intros p.
  by rewrite js_includes_arr_strs.
Qed.

Lemma includes_claims_after l pid : includes (claims_after l pid) pid = true.
Proof.
  unfold claims_after. destruct (includes l pid) eqn:E; [done|].
  apply includes_spec. set_solver.
Qed.

(** C6: claiming a placeholder, end to end.  With a store holding the
    claimed ids and room for one more, confirming the claim of placeholder
    [pid] completes: no exception, no request, the confirmation closes and
    the success dialog opens, [pid] leaves the list, and the next page load
    renders the catalog without [pid]. *)
Theorem confirm_placeholder_persists g st l pid n e :
  claimTarget g = Some (mkTarget CTPlaceholder pid n e) ->
  claims_stored st l ->
  store_size (<[CLAIMED_PLACEHOLDERS_KEY :=
                json_stringify (JArr (JStr <$> l ++ [pid]))]> st) <= quota ->
  let r := ui_handle quota ClickConfirm g st in
  res_rejected r = None /\ res_tasks r = [] /\
  confirmOpen (res_grid r) = false /\ successOpen (res_grid r) = true /\
  placeholderItems (res_grid r) = placeholderItems g ⊖ pid /\
  exists ph, initialPlaceholderItems (res_store r) = JsOk ph /\ pid ∉ ids ph.
Proof.
  intros Ht Hs Hq. destruct (addClaimedPlaceholderId_persists quota st l pid Hs Hq)
    as (st' & Hadd & Hs'). simpl. unfold handleConfirmClaim. rewrite Ht. simpl.
  rewrite Hadd. simpl. split_and!; try done.
  eexists. split; [by apply initialPlaceholderItems_stored|].
  rewrite elem_of_ids. intros (p & Hp & <-).
  apply list_elem_of_In, filter_In in Hp as [_ Hp].
  by rewrite includes_claims_after in Hp.
Qed.

(** C10: with a stored claim list that parses to a value other than an
    array or a string, confirming a placeholder claim rejects with a
    [TypeError] before any state update: the dialog closes, no success is
    shown, the placeholder stays listed and the store is unchanged. *)
Theorem confirm_placeholder_corrupt g st s v pid n e :
  claimTarget g = Some (mkTarget CTPlaceholder pid n e) ->
  st !! CLAIMED_PLACEHOLDERS_KEY = Some s -> s <> EmptyString -> json_parse s = Some v ->
  (forall vs, v <> JArr vs) -> (forall t, v <> JStr t) ->
  let r := ui_handle quota ClickConfirm g st in
  res_rejected r = Some TypeError /\ res_store r = st /\
  successOpen (res_grid r) = successOpen g /\ confirmOpen (res_grid r) = false /\
  placeholderItems (res_grid r) = placeholderItems g.
Proof.
  intros Ht Hk Hne Hp Harr Hstr. simpl. unfold handleConfirmClaim. rewrite Ht. simpl.
  by rewrite (addClaimedPlaceholderId_corrupt quota st s v pid Hk Hne Hp Harr Hstr).
Qed.
End ItemGridFacts.
