(* ===== verification/Sync.v ===== *)
(** * Sync: the grid, the table and the change channel as one system

    [Sys] holds the hosted table with the server clock, the mounted
    [ItemGrid]'s state, the browser's local storage, whether the realtime
    channel has joined, the notifications published to the channel and not
    yet delivered ([inbox], in commit order), and the grid's requests in
    flight.  [step] interleaves:
    - writes of other clients (a [DonateForm] elsewhere inserting, another
      browser claiming), which the server commits at a clock that never
      goes back;
    - the join of the channel: [subscribe()] returns at once but the
      channel only receives the notifications of commits after its join;
    - the server executing one of the grid's requests, or the network
      failing it (before it reaches the server, or on its way back after
      the commit);
    - the delivery of a reply to the awaiting handler, and of the next
      notification to [onInsert] / [onDelete];
    - the user's clicks ([ItemGrid.ui_handle]).

    [view_of] is the list the grid shows once it has handled every
    notification already published; [synced] says it is the table, up to
    the order of rows.  The main theorem is that [synced] is an invariant of
    [step]: from the moment the initial fetch is reconciled, the visible
    list refines the table.  The other theorems exhibit the executions in
    which it fails to be reconciled, and the claim flow's outcomes. *)

From S2P Require Import Prelude Types Json LocalStore Database ItemGrid.

(** A request of the grid in flight: sent, or answered and on its way
    back. *)
Inductive Flight :=
| FSent (t : Task)
| FSelReply (res : response (list DatabaseDonatedItem))
    (k : list DatabaseDonatedItem -> GridState -> GridState)
| FDelReply (res : response unit) (k : bool -> GridState -> GridState).

Record Sys := mkSys {
  table : list DatabaseDonatedItem;
  clock : Z;
  grid : GridState;
  store : Store;
  subscribed : bool;
  inbox : list change;
  inflight : list Flight
}.

(** The notifications a commit publishes reach the channel only once it
    has joined. *)
Definition publish (s : Sys) (chs : list change) : list change :=
  if subscribed s then inbox s ++ chs else inbox s.

(** The grid's channel callbacks applied to a notification. *)
Definition dispatch (g : GridState) (ch : change) : GridState :=
  Client.subscribeToItemChanges onInsert onDelete ch g.

(** Two rows of the table for the executions below: a lamp donated at
    time [t] by the owner of [email]. *)
Definition demo_row (rid email : string) (t : Z) : DatabaseDonatedItem :=
  Server.new_row rid t (mkNewItem "Lamp" "Desk lamp" "Furniture" "Good" "Downtown" email "img").

Section Sync.
Context `{JsonCodec}.
Variable quota : nat.

(** The page mounts: first render, then the effect. *)
Definition mountSys (rows : list DatabaseDonatedItem) (now : Z) (st : Store)
    : js_result Sys :=
  let! g := initGrid st in
  JsOk (mkSys rows now g st false [] (FSent <$> mount)).

Inductive step : Sys -> Sys -> Prop :=
| StepJoin t c g st inb fl :
    step (mkSys t c g st false inb fl) (mkSys t c g st true inb fl)
| StepOtherInsert s fresh now item res rows chs :
    (clock s <= now)%Z ->
    Server.insert fresh now item (table s) = (res, rows, chs) ->
    step s (mkSys rows now (grid s) (store s) (subscribed s) (publish s chs) (inflight s))
| StepOtherDelete s k res rows chs :
    Server.delete k (table s) = (res, rows, chs) ->
    step s (mkSys rows (clock s) (grid s) (store s) (subscribed s) (publish s chs)
              (inflight s))
| StepSelectExec s l1 l2 k reply :
    inflight s = l1 ++ FSent (TSelect k) :: l2 ->
    Server.select_reply (table s) reply ->
    step s (mkSys (table s) (clock s) (grid s) (store s) (subscribed s) (inbox s)
              (l1 ++ FSelReply (ok reply) k :: l2))
| StepSelectFail s l1 l2 k msg :
    inflight s = l1 ++ FSent (TSelect k) :: l2 ->
    step s (mkSys (table s) (clock s) (grid s) (store s) (subscribed s) (inbox s)
              (l1 ++ FSelReply (failed msg) k :: l2))
| StepDeleteExec s l1 l2 target k res rows chs (lost : option string) :
    inflight s = l1 ++ FSent (TDelete target k) :: l2 ->
    Server.delete target (table s) = (res, rows, chs) ->
    step s (mkSys rows (clock s) (grid s) (store s) (subscribed s) (publish s chs)
              (l1 ++ FDelReply (from_option failed res lost) k :: l2))
| StepDeleteFail s l1 l2 target k msg :
    inflight s = l1 ++ FSent (TDelete target k) :: l2 ->
    step s (mkSys (table s) (clock s) (grid s) (store s) (subscribed s) (inbox s)
              (l1 ++ FDelReply (failed msg) k :: l2))
| StepReplySelect s l1 l2 res k :
    inflight s = l1 ++ FSelReply res k :: l2 ->
    step s (mkSys (table s) (clock s) (k (Client.getDonatedItemsFromDB res) (grid s))
              (store s) (subscribed s) (inbox s) (l1 ++ l2))
| StepReplyDelete s l1 l2 res k :
    inflight s = l1 ++ FDelReply res k :: l2 ->
    step s (mkSys (table s) (clock s) (k (Client.deleteDonatedItemFromDB res) (grid s))
              (store s) (subscribed s) (inbox s) (l1 ++ l2))
| StepNotify s ch rest :
    inbox s = ch :: rest ->
    step s (mkSys (table s) (clock s) (dispatch (grid s) ch) (store s) (subscribed s)
              rest (inflight s))
| StepUi s e :
    ui_enabled e (grid s) ->
    step s (mkSys (table s) (clock s) (res_grid (ui_handle quota e (grid s) (store s)))
              (res_store (ui_handle quota e (grid s) (store s))) (subscribed s) (inbox s)
              (inflight s ++ (FSent <$> res_tasks (ui_handle quota e (grid s) (store s))))).

(** Executions: zero or more steps. *)
Inductive star : Sys -> Sys -> Prop :=
| star_refl s : star s s
| star_step s1 s2 s3 : step s1 s2 -> star s2 s3 -> star s1 s3.

(** The list the grid shows once the published notifications are
    handled. *)
Definition view_of (s : Sys) : list DatabaseDonatedItem :=
  donatedItems (foldl dispatch (grid s) (inbox s)).

(** A request that leaves the visible list alone: the deletes the claim
    flow sends, whose continuation only opens and closes dialogs. *)
Definition keeps_items (f : Flight) : Prop :=
  match f with
  | FSent (TDelete _ k) | FDelReply _ k => forall b g, donatedItems (k b g) = donatedItems g
  | _ => False
  end.

(** The fetch is reconciled: no select is in flight any more, the channel
    has joined, and the shown list is the table up to order. *)
Definition synced (s : Sys) : Prop :=
  subscribed s = true /\ Forall keeps_items (inflight s) /\ view_of s ≡ₚ table s.
End Sync.

(** ** The visible list under notifications *)

Lemma dispatch_items g1 g2 ch :
  donatedItems g1 = donatedItems g2 ->
  donatedItems (dispatch g1 ch) = donatedItems (dispatch g2 ch).
Proof. destruct ch; simpl; congruence. Qed.

(** Only [donatedItems] decides what the notifications make of it. *)
Lemma foldl_dispatch_items g1 g2 chs :
  donatedItems g1 = donatedItems g2 ->
  donatedItems (foldl dispatch g1 chs) = donatedItems (foldl dispatch g2 chs).
Proof.
  revert g1 g2. induction chs as [|ch chs IH]; intros g1 g2 Hg; [done|].
  simpl. apply IH, dispatch_items, Hg.
Qed.

(** Simulation: handling notifications on a list that is the table up to
    order gives the table the same notifications describe, up to order. *)
Lemma foldl_dispatch_replay g t chs :
  donatedItems g ≡ₚ t ->
  donatedItems (foldl dispatch g chs) ≡ₚ ServerFacts.replay chs t.
Proof.
  revert g t. induction chs as [|ch chs IH]; intros g t Hg; [done|].
  simpl. apply IH. destruct ch as [r|k]; simpl.
  - rewrite Hg. apply Permutation_cons_append.
  - by rewrite Hg.
Qed.

(** The notifications a write publishes describe the write. *)
Lemma insert_publishes fresh now item rows res rows' chs :
  Server.insert fresh now item rows = (res, rows', chs) ->
  ServerFacts.replay chs rows = rows'.
Proof.
  unfold Server.insert. case_decide; intros [= <- <- <-]; done.
Qed.

Lemma delete_publishes k rows res rows' chs :
  Server.delete k rows = (res, rows', chs) ->
  ServerFacts.replay chs rows = rows'.
Proof.
  unfold Server.delete. intros [= <- <- <-].
  assert (Hall : Forall (fun x => get_id x = k)
                   (filter (fun x : DatabaseDonatedItem => get_id x = k) rows)).
  { apply Forall_forall. intros x Hx. apply list_elem_of_filter in Hx. tauto. }
  destruct (filter _ rows) as [|r rs] eqn:Hf.
  - symmetry. apply remove_id_notin. rewrite elem_of_ids. intros (x & Hx & Hxk).
    by apply (filter_nil_not_elem_of _ _ x Hf).
  - apply Forall_cons in Hall as [Hr Hrs].
    simpl. change (id r) with (get_id r). rewrite Hr.
    by apply ServerFacts.replay_deletes.
Qed.

Lemma publish_subscribed s chs :
  subscribed s = true -> publish s chs = inbox s ++ chs.
Proof. unfold publish. by intros ->. Qed.

(** A commit the joined channel hears about keeps the shown list equal to
    the table up to order. *)
Lemma view_commit s chs :
  subscribed s = true -> view_of s ≡ₚ table s ->
  donatedItems (foldl dispatch (grid s) (publish s chs)) ≡ₚ ServerFacts.replay chs (table s).
Proof.
  intros Hsub Hv. rewrite publish_subscribed, foldl_app by done.
  by apply foldl_dispatch_replay.
Qed.

Lemma Forall_keeps_replace (P : Flight -> Prop) l1 l2 f f' :
  Forall P (l1 ++ f :: l2) -> (P f -> P f') -> Forall P (l1 ++ f' :: l2).
Proof. rewrite !Forall_app, !Forall_cons. naive_solver. Qed.

Lemma Forall_keeps_remove (P : Flight -> Prop) l1 l2 f :
  Forall P (l1 ++ f :: l2) -> Forall P (l1 ++ l2) /\ P f.
Proof. rewrite !Forall_app, !Forall_cons. naive_solver. Qed.

Section SyncFacts.
Context `{JsonCodec}.
Variable quota : nat.

(** C1: once the fetch is reconciled, every step of the system keeps the
    list the grid shows (with the published notifications handled) equal
    to the table up to the order of rows. *)
Theorem synced_step s s' : step quota s s' -> synced s -> synced s'.
Proof.
  intros Hstep (Hsub & Hfl & Hv). unfold synced, view_of in *.
  inv Hstep; simpl in *.
  - split_and!; [done|done|]. erewrite <- insert_publishes by eauto. by apply view_commit.
  - split_and!; [done|done|]. erewrite <- delete_publishes by eauto. by apply view_commit.
  - rewrite H0 in Hfl. by apply Forall_keeps_remove in Hfl as [_ []].
  - rewrite H0 in Hfl. by apply Forall_keeps_remove in Hfl as [_ []].
  - rewrite H0 in Hfl. split_and!; [done| |].
    + by eapply Forall_keeps_replace.
    + erewrite <- delete_publishes by eauto. by apply view_commit.
  - rewrite H0 in Hfl. split_and!; [done|by eapply Forall_keeps_replace|done].
  - rewrite H0 in Hfl. by apply Forall_keeps_remove in Hfl as [_ []].
  - rewrite H0 in Hfl. apply Forall_keeps_remove in Hfl as [Hfl Hk].
    split_and!; [done|done|]. by erewrite foldl_dispatch_items by apply Hk.
  - rewrite H0 in Hv. done.
  - split_and!; [done| |].
    + apply Forall_app. split; [done|]. apply Forall_fmap.
      eapply Forall_impl; [apply ui_handle_tasks|]. intros t [target ->]. done.
    + by erewrite foldl_dispatch_items by apply ui_handle_items.
Qed.

Lemma synced_star s s' : star quota s s' -> synced s -> synced s'.
Proof. induction 1; eauto using synced_step. Qed.

(** C2: refinement.  From a reconciled state, whenever no notification
    is waiting, the grid shows exactly the rows of the table, in some
    order. *)
Theorem synced_refines s s' :
  synced s -> star quota s s' -> inbox s' = [] -> donatedItems (grid s') ≡ₚ table s'.
Proof.
  intros Hs Hstar Hin. destruct (synced_star s s' Hstar Hs) as (_ & _ & Hv).
  unfold view_of in Hv. by rewrite Hin in Hv.
Qed.

(** C3: the fetch reconciles the grid when its snapshot is followed by
    exactly the notifications still waiting: delivering the reply of the
    initial select then makes the system [synced]. *)
Theorem fetch_reconciles s l1 l2 snapshot reply :
  subscribed s = true ->
  inflight s = l1 ++ FSelReply (ok reply) fetchItemsDone :: l2 ->
  Forall keeps_items (l1 ++ l2) ->
  Server.select_reply snapshot reply ->
  table s = ServerFacts.replay (inbox s) snapshot ->
  exists s', step quota s s' /\ synced s'.
Proof.
  intros Hsub Hfl Hkeep [Hperm _] Htab. eexists. split.
  - by eapply StepReplySelect.
  - split_and!; [done|done|]. unfold view_of; simpl.
    rewrite Htab. by apply foldl_dispatch_replay.
Qed.

(** Mounting on an empty store shows the whole placeholder catalog and
    sends the initial fetch. *)
Lemma mountSys_empty rows now :
  mountSys rows now ∅ =
  JsOk (mkSys rows now (mkGrid [] INITIAL_PLACEHOLDER_ITEMS true false false None) ∅ false []
          [FSent (TSelect fetchItemsDone)]).
Proof. reflexivity. Qed.

(** Taking one step of an execution whose remaining steps are proved
    next. *)
Tactic Notation "take_step" uconstr(c) :=
  eapply star_step; [eapply c|simpl].

(** C4: the initial fetch races with the channel.  A row inserted after
    the join but before the server takes the select's snapshot is in the
    reply and then prepended again by [onInsert]: with every reply and
    notification delivered, the grid shows the same row twice although
    the table has it once. *)
Theorem fetch_race_duplicate :
  exists s0 s', mountSys [] 0 ∅ = JsOk s0 /\ star quota s0 s' /\
    inbox s' = [] /\ inflight s' = [] /\ NoDup (ids (table s')) /\
    ~ NoDup (ids (donatedItems (grid s'))).
Proof.
  eexists _, _. split; [apply mountSys_empty|].
  split.
  - take_step StepJoin.
    take_step (StepOtherInsert _ _ "r1" 1
                 (mkNewItem "Chair" "Oak" "Furniture" "Good" "Downtown" "a@b.co" "img")).
    { simpl. lia. }
    { reflexivity. }
    take_step (StepSelectExec _ _ [] []).
    { reflexivity. }
    { split; [reflexivity|repeat constructor]. }
    take_step (StepReplySelect _ _ [] []).
    { reflexivity. }
    take_step StepNotify.
    { reflexivity. }
    apply star_refl.
  - split_and!; [done|done|repeat constructor; set_solver|].
    inversion 1 as [|? ? Hin]. apply Hin. left.
Qed.

(** C5: the other interleaving loses a row: the snapshot is taken
    before the insert, the insert's notification is handled before the
    reply arrives, and the reply overwrites it.  With nothing left to
    deliver, the grid misses a row of the table. *)
Theorem fetch_race_loss :
  exists s0 s', mountSys [] 0 ∅ = JsOk s0 /\ star quota s0 s' /\
    inbox s' = [] /\ inflight s' = [] /\ ~ (donatedItems (grid s') ≡ₚ table s').
Proof.
  eexists _, _. split; [apply mountSys_empty|].
  split.
  - take_step StepJoin.
    take_step (StepSelectExec _ _ [] []).
    { reflexivity. }
    { split; [reflexivity|constructor]. }
    take_step (StepOtherInsert _ _ "r1" 1
                 (mkNewItem "Chair" "Oak" "Furniture" "Good" "Downtown" "a@b.co" "img")).
    { simpl. lia. }
    { reflexivity. }
    take_step StepNotify.
    { reflexivity. }
    take_step (StepReplySelect _ _ [] []).
    { reflexivity. }
    apply star_refl.
  - split_and!; [done|done|]. intros Hp. apply Permutation_nil in Hp. discriminate.
Qed.

(** C11: a failed claim is reported as a success.  When the delete of the
    confirmed donated item fails on the network, the handler still closes
    the confirmation and opens the success dialog with the donor's email,
    while the row stays in the table and in the list. *)
Theorem claim_failure_reports_success s tid tname temail (msg : string) :
  claimTarget (grid s) = Some (mkTarget CTDonated tid tname temail) ->
  confirmOpen (grid s) = true -> inflight s = [] ->
  exists s', star quota s s' /\ table s' = table s /\ inflight s' = [] /\
    successOpen (grid s') = true /\ shownEmail (grid s') = temail /\
    donatedItems (grid s') = donatedItems (grid s).
Proof.
  intros Ht Hc Hfl. eexists. split.
  - take_step (StepUi _ s ClickConfirm).
    { exact Hc. }
    rewrite (confirm_donated quota _ _ _ Ht eq_refl), Hfl. simpl.
    take_step (StepDeleteFail _ _ [] [] _ _ msg).
    { reflexivity. }
    take_step (StepReplyDelete _ _ [] []).
    { reflexivity. }
    apply star_refl.
  - unfold shownEmail. simpl. by rewrite Ht.
Qed.

(** C12: the success dialog can show the wrong donor.  After confirming
    the claim of one item and, while its delete is in flight, opening the
    claim of another, the reply of the first delete closes the second
    confirmation unanswered and shows the success dialog with the second
    item's email: the first item is gone, the second is still listed. *)
Theorem claim_race_wrong_email :
  let r1 := demo_row "r1" "first@example.com" 1 in
  let r2 := demo_row "r2" "second@example.com" 2 in
  exists s0 s', mountSys [r2; r1] 2 ∅ = JsOk s0 /\ star quota s0 s' /\
    table s' = [r2] /\ r2 ∈ donatedItems (grid s') /\
    confirmOpen (grid s') = false /\ successOpen (grid s') = true /\
    shownEmail (grid s') = contact_email r2.
Proof.
  intros r1 r2. eexists _, _. split; [apply mountSys_empty|]. split.
  - take_step StepJoin.
    take_step (StepSelectExec _ _ [] [] _ [r2; r1]).
    { reflexivity. }
    { split; [reflexivity|repeat constructor; unfold Server.newer_first; simpl; lia]. }
    take_step (StepReplySelect _ _ [] []).
    { reflexivity. }
    take_step (StepUi _ _ (ClickClaimDonated r1)).
    { split_and!; [set_solver|done|done]. }
    take_step (StepUi _ _ ClickConfirm).
    { reflexivity. }
    take_step (StepUi _ _ (ClickClaimDonated r2)).
    { split_and!; [set_solver|done|done]. }
    take_step (StepDeleteExec _ _ [] [] _ _ _ _ _ None).
    { reflexivity. }
    { reflexivity. }
    take_step StepNotify.
    { reflexivity. }
    take_step (StepReplyDelete _ _ [] []).
    { reflexivity. }
    apply star_refl.
  - split_and!; try reflexivity. set_solver.
Qed.
End SyncFacts.
