(* ===== verification/Validation.v ===== *)
(** * Validation: the string checks of components/DonateForm.tsx

    [validateForm] trims the text fields with [String.prototype.trim] and
    tests the contact email against [/^[^\s@]+@[^\s@]+\.[^\s@]+$/].  Strings
    are ASCII here, so [\s] and the whitespace [trim] removes are the six
    ASCII whitespace characters (tab, line feed, vertical tab, form feed,
    carriage return, space).

    [email_lang] is the language of the regular expression, read off its
    syntax: one or more non-blank non-[@] characters, an [@], one or more,
    a dot, one or more.  [email_test] is the executable test: split at the
    first [@], check both sides and look for a dot with a character on
    each side.  [email_test_spec] proves they agree. *)

From Stdlib Require Import Ascii.
From S2P Require Import Prelude.

Local Open Scope char_scope.

(** [\s] on ASCII. *)
Definition is_ws (c : ascii) : bool :=
  let n := nat_of_ascii c in (Nat.leb 9 n && Nat.leb n 13) || Nat.eqb n 32.

Fixpoint drop_ws (l : list ascii) : list ascii :=
  match l with
  | c :: r => if is_ws c then drop_ws r else l
  | [] => []
  end.

(** [s.trim()]: leading and trailing whitespace removed. *)
Definition trim (s : string) : string :=
  String.string_of_list_ascii (rev (drop_ws (rev (drop_ws (String.list_ascii_of_string s))))).

(** The character class [[^\s@]]. *)
Definition plain (c : ascii) : bool := negb (is_ws c) && negb (Ascii.eqb c "@").

(** The strings [/^[^\s@]+@[^\s@]+\.[^\s@]+$/] matches. *)
Definition email_lang (l : list ascii) : Prop :=
  exists a b c, l = a ++ "@" :: b ++ "." :: c /\ a <> [] /\ b <> [] /\ c <> [] /\
    Forall (fun x => plain x = true) (a ++ b ++ c).

(** The text before the first [@] and the text after it. *)
Fixpoint split_at_sign (l : list ascii) : option (list ascii * list ascii) :=
  match l with
  | [] => None
  | c :: r =>
      if Ascii.eqb c "@" then Some ([], r)
      else '(a, d) ← split_at_sign r; Some (c :: a, d)
  end.

(** A dot with a character before it and one after it. *)
Fixpoint inner_dot (l : list ascii) : bool :=
  match l with
  | _ :: ((d :: _ :: _) as t) => Ascii.eqb d "." || inner_dot t
  | _ => false
  end.

(** [/^[^\s@]+@[^\s@]+\.[^\s@]+$/.test(s)]. *)
Definition email_test (s : string) : bool :=
  match split_at_sign (String.list_ascii_of_string s) with
  | Some (a, d) => negb (bool_decide (a = [])) && forallb plain a && forallb plain d && inner_dot d
  | None => false
  end.

(** ** The test decides the language *)

Lemma ascii_eqb_true c d : Ascii.eqb c d = true <-> c = d.
Proof. apply Ascii.eqb_eq. Qed.

Lemma split_at_sign_app a d :
  forallb plain a = true -> split_at_sign (a ++ "@" :: d) = Some (a, d).
Proof.
  induction a as [|c a IH]; [done|]. simpl. intros [Hc Ha]%andb_prop.
  unfold plain in Hc. apply andb_prop in Hc as [_ Hc].
  destruct (Ascii.eqb c "@"); [done|]. by rewrite IH.
Qed.

Lemma split_at_sign_Some l a d :
  split_at_sign l = Some (a, d) -> l = a ++ "@" :: d.
Proof.
  revert a. induction l as [|c l IH]; intros a; [done|]. simpl.
  destruct (Ascii.eqb c "@") eqn:E.
  - apply ascii_eqb_true in E as ->. by intros [= <- <-].
  - destruct (split_at_sign l) as [[a' d']|] eqn:Hs; [|done].
    intros [= <- <-]. simpl. f_equal. by apply IH.
Qed.

Lemma inner_dot_spec d :
  inner_dot d = true <-> exists b c, d = b ++ "." :: c /\ b <> [] /\ c <> [].
Proof.
  induction d as [|x d IH]; [split; [done|]; intros (b & c & Hd & Hb & _); by destruct b|].
  destruct d as [|y [|z r]].
  - split; [done|]. intros (b & c & Hd & Hb & Hc).
    apply (f_equal length) in Hd. rewrite length_app in Hd.
    destruct b, c; simpl in *; [done..|lia].
  - split; [done|]. intros (b & c & Hd & Hb & Hc).
    apply (f_equal length) in Hd. rewrite length_app in Hd.
    destruct b, c; simpl in *; [done..|lia].
  - change (inner_dot (x :: y :: z :: r)) with (Ascii.eqb y "." || inner_dot (y :: z :: r)).
    rewrite orb_true_iff, IH, ascii_eqb_true. split.
    + intros [->|(b & c & Hd & Hb & Hc)].
      * exists [x], (z :: r). done.
      * exists (x :: b), c. rewrite Hd. done.
    + intros (b & c & Hd & Hb & Hc). destruct b as [|x' b]; [done|].
      injection Hd as -> Hd. destruct b as [|y' b]; simpl in Hd.
      * injection Hd as ->. by left.
      * injection Hd as -> Hd. right. exists (y' :: b), c. by rewrite Hd.
Qed.

Lemma Forall_plain l : Forall (fun x => plain x = true) l <-> forallb plain l = true.
Proof.
  induction l as [|x l IH]; simpl; [done|]. by rewrite Forall_cons, andb_true_iff, IH.
Qed.

(** The executable test accepts exactly the language of the pattern. *)
Lemma email_test_spec s : email_test s = true <-> email_lang (String.list_ascii_of_string s).
Proof.
  unfold email_test, email_lang. split.
  - destruct (split_at_sign _) as [[a d]|] eqn:Hs; [|done].
    apply split_at_sign_Some in Hs. rewrite Hs.
    intros [[[Ha Hpa]%andb_prop Hpd]%andb_prop Hdot]%andb_prop.
    apply inner_dot_spec in Hdot as (b & c & -> & Hb & Hc).
    exists a, b, c. split_and!; [done| |done|done|].
    + intros ->. done.
    + apply Forall_plain in Hpa, Hpd. rewrite Forall_app in Hpd |- *.
      rewrite Forall_cons in Hpd. rewrite Forall_app. naive_solver.
  - intros (a & b & c & -> & Ha & Hb & Hc & Hp).
    rewrite !Forall_app in Hp. destruct Hp as (Hpa & Hpb & Hpc).
    rewrite split_at_sign_app by (by apply Forall_plain).
    apply andb_true_intro; split; [apply andb_true_intro; split|].
    + apply andb_true_intro. split; [by rewrite bool_decide_false|by apply Forall_plain].
    + apply Forall_plain. rewrite Forall_app, Forall_cons. done.
    + apply inner_dot_spec. eauto.
Qed.

(** ** Trimming *)

Lemma plain_not_ws c : plain c = true -> is_ws c = false.
Proof. unfold plain. by intros [?%negb_true_iff _]%andb_prop. Qed.

Lemma drop_ws_keep x r : is_ws x = false -> drop_ws (x :: r) = x :: r.
Proof. simpl. by intros ->. Qed.

(** A text that starts and ends with a non-blank character is its own
    trim. *)
Lemma trim_keep x l y :
  is_ws x = false -> is_ws y = false ->
  trim (String.string_of_list_ascii (x :: l ++ [y])) = String.string_of_list_ascii (x :: l ++ [y]).
Proof.
  intros Hx Hy. unfold trim. rewrite String.list_ascii_of_string_of_list_ascii.
  rewrite drop_ws_keep by done. rewrite app_comm_cons, rev_app_distr. simpl.
  rewrite Hy. replace (y :: rev l ++ [x]) with (rev (x :: l ++ [y])).
  - rewrite rev_involutive. done.
  - simpl. by rewrite rev_app_distr.
Qed.

(** An address the pattern accepts has no blank to trim: [trim] leaves it
    as it is. *)
Lemma trim_email s : email_test s = true -> trim s = s.
Proof.
  rewrite email_test_spec. intros (a & b & c & Hs & Ha & _ & Hc & Hp).
  destruct a as [|x a]; [done|]. destruct (exists_last Hc) as (c' & y & ->).
  rewrite !Forall_app, !Forall_cons in Hp.
  rewrite <- (String.string_of_list_ascii_of_string s), Hs.
  assert (E : (x :: a) ++ "@" :: b ++ "." :: c' ++ [y] =
              x :: (a ++ "@" :: b ++ "." :: c') ++ [y]).
  { simpl. f_equal. rewrite <- app_assoc. simpl. by rewrite <- app_assoc. }
  rewrite E.
  apply trim_keep; apply plain_not_ws; naive_solver.
Qed.

(** ** A leading blank *)

(** [\s] never matches [@]. *)
Lemma ws_not_at c : is_ws c = true -> Ascii.eqb c "@" = false.
Proof. intros Hc. destruct (Ascii.eqb c "@") eqn:E; [|done]. by apply ascii_eqb_true in E as ->. Qed.

(** The pattern is anchored: a text that starts with a blank never
    matches. *)
Lemma email_test_ws_head c t : is_ws c = true -> email_test (String c t) = false.
Proof.
  intros Hc. unfold email_test. simpl. rewrite (ws_not_at c Hc).
  destruct (split_at_sign _) as [[a d]|]; [|done]. simpl.
  unfold plain at 1. rewrite Hc. done.
Qed.

(** [trim] drops a leading blank. *)
Lemma trim_ws_head c t : is_ws c = true -> trim (String c t) = trim t.
Proof. intros Hc. unfold trim. simpl. by rewrite Hc. Qed.
