(* ===== verification/DonateForm.v ===== *)
(** * DonateForm: components/DonateForm.tsx

    [FormState] is the component's React state, one field per [useState]:
    [formData] (a JavaScript object written with computed keys, here a map
    from strings), the selected file, its preview URL, [isSubmitting] and
    the [errors] object.  Each handler is a function on it.  A file is its
    MIME type, its size in bytes and the URL [URL.createObjectURL] gives it.

    [submitDonation] awaits twice: [fileToBase64] (a [FileReader], outside
    the model: its result is an input, [None] when the promise rejects) and
    [saveDonatedItemToDB].  As in [ItemGrid.v], each await is a [Pending]
    request carrying what the rest of the body needs from its closure, and
    [fileRead] / [saveDone] are the rest of the body when the answer
    arrives, the [catch] and the [finally] included.

    [form_step] interleaves the user's edits and clicks (only the events the
    rendered form can produce: the four text inputs by their [name], the two
    selects with the values of [CATEGORIES] and [CONDITIONS], the file
    input, and the submit button while it is enabled) with the answers to
    the pending requests. *)

From S2P Require Import Prelude Types Database Validation.

(** A [File]: [type], [size], and the object URL of its preview. *)
Record FileInfo := mkFile {
  file_type : string;
  file_size : Z;
  file_url : string
}.

Record FormState := mkForm {
  formData : gmap string string;
  selectedFile : option FileInfo;
  previewUrl : string;
  isSubmitting : bool;
  errors : gmap string string
}.

(** The keys of the initial [formData]. *)
Definition FIELD_NAMES : list string :=
  ["itemName"; "description"; "category"; "condition"; "location"; "contactEmail"].

Definition initialFormData : gmap string string :=
  list_to_map ((fun k => (k, EmptyString)) <$> FIELD_NAMES).

Definition initForm : FormState := mkForm initialFormData None EmptyString false ∅.

(** The state setters. *)
Definition setFormData (f : gmap string string -> gmap string string) (fs : FormState) :=
  mkForm (f (formData fs)) (selectedFile fs) (previewUrl fs) (isSubmitting fs) (errors fs).
Definition setSelectedFile (o : option FileInfo) (fs : FormState) :=
  mkForm (formData fs) o (previewUrl fs) (isSubmitting fs) (errors fs).
Definition setPreviewUrl (u : string) (fs : FormState) :=
  mkForm (formData fs) (selectedFile fs) u (isSubmitting fs) (errors fs).
Definition setIsSubmitting (b : bool) (fs : FormState) :=
  mkForm (formData fs) (selectedFile fs) (previewUrl fs) b (errors fs).
Definition setErrors (f : gmap string string -> gmap string string) (fs : FormState) :=
  mkForm (formData fs) (selectedFile fs) (previewUrl fs) (isSubmitting fs) (f (errors fs)).

(** A JavaScript string is falsy when empty; a missing key is [undefined]. *)
Definition blank (s : string) : bool := bool_decide (s = EmptyString).
Definition truthy (v : option string) : bool :=
  match v with Some s => negb (blank s) | None => false end.

Definition handleInputChange (name value : string) (fs : FormState) : FormState :=
  let fs1 := setFormData (<[name := value]>) fs in
  if truthy (errors fs !! name) then setErrors (<[name := EmptyString]>) fs1 else fs1.

Definition handleSelectChange (name value : string) (fs : FormState) : FormState :=
  let fs1 := setFormData (<[name := value]>) fs in
  if truthy (errors fs !! name) then setErrors (<[name := EmptyString]>) fs1 else fs1.

(** [5 * 1024 * 1024] bytes. *)
Definition MAX_IMAGE_SIZE : Z := 5 * 1024 * 1024.

(** [handleFileChange] with [e.target.files?.[0]]. *)
Definition handleFileChange (file : option FileInfo) (fs : FormState) : FormState :=
  match file with
  | None => fs
  | Some f =>
      if negb (String.prefix "image/" (file_type f)) then
        setErrors (<["image" := "Please select an image file"]>) fs
      else if bool_decide (MAX_IMAGE_SIZE < file_size f)%Z then
        setErrors (<["image" := "Image must be less than 5MB"]>) fs
      else
        setErrors (<["image" := EmptyString]>)
          (setPreviewUrl (file_url f) (setSelectedFile (Some f) fs))
  end.

(** [formData.k].  A missing key would be [undefined], on which [.trim()]
    throws; it reads here as the empty string, and no reachable form has
    one: [form_wf] keeps the six keys ([formsys_step_inv]). *)
Definition field (fd : gmap string string) (k : string) : string := default EmptyString (fd !! k).

(** One check of [validateForm]: [if (failed) newErrors.k = msg]. *)
Definition check (failed : bool) (k msg : string) (e : gmap string string) : gmap string string :=
  if failed then <[k := msg]> e else e.

(** The [newErrors] object [validateForm] builds, check by check. *)
Definition formErrors (fs : FormState) : gmap string string :=
  let fd := formData fs in
  let e := check (blank (trim (field fd "itemName"))) "itemName" "Item name is required" ∅ in
  let e := check (blank (trim (field fd "description"))) "description" "Description is required" e in
  let e := check (blank (field fd "category")) "category" "Please select a category" e in
  let e := check (blank (field fd "condition")) "condition" "Please select condition" e in
  let e := check (blank (trim (field fd "location"))) "location" "Location is required" e in
  let e := if blank (trim (field fd "contactEmail")) then
             check true "contactEmail" "Email is required" e
           else
             check (negb (email_test (field fd "contactEmail"))) "contactEmail"
               "Please enter a valid email" e in
  check (bool_decide (selectedFile fs = None)) "image" "Please upload an item photo" e.

(** [validateForm]: store the errors, and whether [Object.keys] of them is
    empty. *)
Definition validateForm (fs : FormState) : FormState * bool :=
  let newErrors := formErrors fs in
  (setErrors (fun _ => newErrors) fs, Nat.eqb (size newErrors) 0).

(** The toasts the form shows. *)
Inductive toast := ToastValidationError | ToastDonationSuccessful | ToastSubmissionFailed.

(** What [submitDonation] awaits, with what the rest of its body reads
    from its closure. *)
Inductive Pending :=
| PReadFile (f : FileInfo) (fd : gmap string string)
| PSave (item : NewItem).

Record SubmitResult := mkSubmit {
  sub_form : FormState;
  sub_toasts : list toast;
  sub_pending : option Pending;
  sub_navigate : bool
}.

(** The row [submitDonation] sends: the text fields trimmed, the selects
    as they are. *)
Definition newItemOf (fd : gmap string string) (imageBase64 : string) : NewItem :=
  mkNewItem (trim (field fd "itemName")) (trim (field fd "description"))
    (field fd "category") (field fd "condition") (trim (field fd "location"))
    (trim (field fd "contactEmail")) imageBase64.

(** [catch] and [finally]: the failure toast, then [isSubmitting] off. *)
Definition submitFailed (fs : FormState) : SubmitResult :=
  mkSubmit (setIsSubmitting false fs) [ToastSubmissionFailed] None false.

(** [submitDonation] up to its first [await].  [fileToBase64(null)] would
    throw inside the promise and reject it. *)
Definition submitDonation (fs : FormState) : SubmitResult :=
  let '(fs1, ok) := validateForm fs in
  if negb ok then mkSubmit fs1 [ToastValidationError] None false
  else
    let fs2 := setIsSubmitting true fs1 in
    match selectedFile fs2 with
    | Some f => mkSubmit fs2 [] (Some (PReadFile f (formData fs2))) false
    | None => submitFailed fs2
    end.

(** After [await fileToBase64(...)]: send the row, or fail. *)
Definition fileRead (fd : gmap string string) (res : option string) (fs : FormState)
    : SubmitResult :=
  match res with
  | Some img => mkSubmit fs [] (Some (PSave (newItemOf fd img))) false
  | None => submitFailed fs
  end.

(** After [await saveDonatedItemToDB(...)]: [if (error) throw error], else
    the success toast and the navigation timer, then [finally]. *)
Definition saveDone (res : response DatabaseDonatedItem) (fs : FormState) : SubmitResult :=
  match Client.save_error (Client.saveDonatedItemToDB res) with
  | Some _ => submitFailed fs
  | None => mkSubmit (setIsSubmitting false fs) [ToastDonationSuccessful] None true
  end.

(** ** The form as a system *)

Inductive form_event :=
| InputChange (name value : string)
| SelectChange (name value : string)
| FileChange (file : option FileInfo)
| SubmitForm.

(** The [name]s of the form's text inputs. *)
Definition TEXT_INPUTS : list string := ["itemName"; "description"; "location"; "contactEmail"].

(** The events the rendered form produces: an input's [onChange] with its
    [name], a select's [onValueChange] with one of its items, the file
    input's [onChange], and [onSubmit] while the button is not
    [disabled={isSubmitting}]. *)
Definition form_enabled (e : form_event) (fs : FormState) : Prop :=
  match e with
  | InputChange n _ => n ∈ TEXT_INPUTS
  | SelectChange n v => (n = "category" /\ v ∈ CATEGORIES) \/ (n = "condition" /\ v ∈ CONDITIONS)
  | FileChange _ => True
  | SubmitForm => isSubmitting fs = false
  end.

(** The handler of each event. *)
Definition form_handle (e : form_event) (fs : FormState) : SubmitResult :=
  match e with
  | InputChange n v => mkSubmit (handleInputChange n v fs) [] None false
  | SelectChange n v => mkSubmit (handleSelectChange n v fs) [] None false
  | FileChange f => mkSubmit (handleFileChange f fs) [] None false
  | SubmitForm => submitDonation fs
  end.

(** The mounted form, its requests in flight, the toasts shown and whether
    the navigation home was scheduled. *)
Record FormSys := mkFormSys {
  fform : FormState;
  fpending : list Pending;
  ftoasts : list toast;
  navigated : bool
}.

Definition apply_result (r : SubmitResult) (rest : list Pending) (s : FormSys) : FormSys :=
  mkFormSys (sub_form r) (rest ++ option_list (sub_pending r)) (ftoasts s ++ sub_toasts r)
    (navigated s || sub_navigate r).

Inductive form_step : FormSys -> FormSys -> Prop :=
| FStepUi s e :
    form_enabled e (fform s) ->
    form_step s (apply_result (form_handle e (fform s)) (fpending s) s)
| FStepRead s l1 l2 f fd res :
    fpending s = l1 ++ PReadFile f fd :: l2 ->
    form_step s (apply_result (fileRead fd res (fform s)) (l1 ++ l2) s)
| FStepSave s l1 l2 item res :
    fpending s = l1 ++ PSave item :: l2 ->
    form_step s (apply_result (saveDone res (fform s)) (l1 ++ l2) s).

Inductive form_star : FormSys -> FormSys -> Prop :=
| form_star_refl s : form_star s s
| form_star_step s1 s2 s3 : form_step s1 s2 -> form_star s2 s3 -> form_star s1 s3.

Definition initFormSys : FormSys := mkFormSys initForm [] [] false.

(** ** What the form checks *)

(** An image of at most 5MB. *)
Definition image_ok (f : FileInfo) : Prop :=
  String.prefix "image/" (file_type f) = true /\ (file_size f <= MAX_IMAGE_SIZE)%Z.

(** The fields [validateForm] accepts, with the selects' values from
    their lists. *)
Definition fields_valid (fd : gmap string string) : Prop :=
  trim (field fd "itemName") <> EmptyString /\ trim (field fd "description") <> EmptyString /\
  field fd "category" ∈ CATEGORIES /\ field fd "condition" ∈ CONDITIONS /\
  trim (field fd "location") <> EmptyString /\ email_test (field fd "contactEmail") = true.

(** A row the spec allows: required text present, enums from their lists,
    a well-formed email. *)
Definition item_valid (it : NewItem) : Prop :=
  ni_name it <> EmptyString /\ ni_description it <> EmptyString /\
  ni_category it ∈ CATEGORIES /\ ni_condition it ∈ CONDITIONS /\
  ni_location it <> EmptyString /\ email_test (ni_contact_email it) = true.

Definition pending_ok (p : Pending) : Prop :=
  match p with
  | PReadFile f fd => image_ok f /\ fields_valid fd
  | PSave it => item_valid it
  end.

(** The keys of [formData] stay, the selects hold nothing or one of their
    values, the selected file passed [handleFileChange]. *)
Definition form_wf (fs : FormState) : Prop :=
  Forall (fun k => is_Some (formData fs !! k)) FIELD_NAMES /\
  field (formData fs) "category" ∈ EmptyString :: CATEGORIES /\
  field (formData fs) "condition" ∈ EmptyString :: CONDITIONS /\
  (forall f, selectedFile fs = Some f -> image_ok f).

(** The invariant of the system: one submission at a time, and what is in
    flight passed validation. *)
Definition formsys_inv (s : FormSys) : Prop :=
  form_wf (fform s) /\
  ((isSubmitting (fform s) = false /\ fpending s = []) \/
   (isSubmitting (fform s) = true /\ exists p, fpending s = [p] /\ pending_ok p)).

(** ** Validation *)

Lemma blank_false s : blank s = false <-> s <> EmptyString.
Proof. unfold blank. by rewrite bool_decide_eq_false. Qed.

(** A check that records an error leaves a non-empty object. *)
Lemma check_empty (b : bool) k v (e : gmap string string) :
  check b k v e = ∅ <-> b = false /\ e = ∅.
Proof.
  unfold check. destruct b; [|naive_solver]. split; [|by intros []].
  intros Hins. exfalso. by apply (insert_non_empty e k v).
Qed.

Lemma formErrors_empty fs :
  let fd := formData fs in
  formErrors fs = ∅ <->
  blank (trim (field fd "itemName")) = false /\ blank (trim (field fd "description")) = false /\
  blank (field fd "category") = false /\ blank (field fd "condition") = false /\
  blank (trim (field fd "location")) = false /\
  blank (trim (field fd "contactEmail")) = false /\
  email_test (field fd "contactEmail") = true /\ selectedFile fs <> None.
Proof.
  unfold formErrors. cbv zeta. rewrite check_empty, bool_decide_eq_false.
  destruct (blank (trim (field _ "contactEmail"))); rewrite !check_empty; [naive_solver|].
  rewrite negb_false_iff. naive_solver.
Qed.

(** [validateForm] passes exactly when no check fails. *)
Lemma validateForm_ok fs : snd (validateForm fs) = true <-> formErrors fs = ∅.
Proof. simpl. by rewrite Nat.eqb_eq, map_size_empty_iff. Qed.

Lemma empty_not_in (l : list string) : EmptyString ∉ l -> forall s, s ∈ EmptyString :: l ->
  s <> EmptyString -> s ∈ l.
Proof. intros _ s Hs Hne. apply elem_of_cons in Hs as [->|]; done. Qed.

Lemma CATEGORIES_nonblank : EmptyString ∉ CATEGORIES.
Proof. unfold CATEGORIES. set_solver. Qed.

Lemma CONDITIONS_nonblank : EmptyString ∉ CONDITIONS.
Proof. unfold CONDITIONS. set_solver. Qed.

(** A value of a select that is not blank is one of its items. *)
Lemma select_value (l : list string) s :
  EmptyString ∉ l -> s ∈ EmptyString :: l -> (blank s = false <-> s ∈ l).
Proof.
  intros Hl Hs. rewrite blank_false. apply elem_of_cons in Hs as [->|Hs]; [done|].
  split; [done|]. intros _ ->. done.
Qed.

Lemma email_test_nonblank s : email_test s = true -> blank (trim s) = false.
Proof. intros He. rewrite trim_email, blank_false by done. by intros ->. Qed.

Lemma submitDonation_invalid fs :
  snd (validateForm fs) = false ->
  submitDonation fs = mkSubmit (fst (validateForm fs)) [ToastValidationError] None false.
Proof. unfold submitDonation. destruct (validateForm fs) as [fs1 ok]. simpl. by intros ->. Qed.

Lemma submitDonation_valid fs :
  snd (validateForm fs) = true ->
  exists f, selectedFile fs = Some f /\
    submitDonation fs =
      mkSubmit (setIsSubmitting true (fst (validateForm fs))) []
        (Some (PReadFile f (formData fs))) false.
Proof.
  intros Hok. pose proof Hok as Hf. rewrite validateForm_ok, formErrors_empty in Hf.
  destruct (selectedFile fs) as [f|] eqn:Hsel; [|naive_solver].
  exists f. split; [done|]. unfold submitDonation.
  destruct (validateForm fs) as [fs1 ok] eqn:Hv. simpl in *. subst ok. simpl.
  injection Hv as <-. simpl. by rewrite Hsel.
Qed.

(** C13: [validateForm] accepts a well-formed form exactly when the
    item name, description and location are not blank once trimmed, a
    category and a condition are chosen (one of [CATEGORIES] and
    [CONDITIONS]), the contact email matches the pattern and a file is
    selected. *)
Theorem validateForm_spec fs :
  form_wf fs ->
  snd (validateForm fs) = true <-> fields_valid (formData fs) /\ selectedFile fs <> None.
Proof.
  intros (_ & Hcat & Hcond & _). rewrite validateForm_ok, formErrors_empty.
  unfold fields_valid. rewrite <- !blank_false.
  rewrite <- (select_value CATEGORIES) by auto using CATEGORIES_nonblank.
  rewrite <- (select_value CONDITIONS) by auto using CONDITIONS_nonblank.
  split; [naive_solver|]. intros ((? & ? & ? & ? & ? & He) & ?).
  split_and!; auto using email_test_nonblank.
Qed.

Lemma lookup_check_ne b k k' v e : k <> k' -> check b k' v e !! k = e !! k.
Proof. intros Hk. unfold check. destruct b; [by rewrite lookup_insert_ne|done]. Qed.

Lemma lookup_check_true k v e : check true k v e !! k = Some v.
Proof. apply lookup_insert_eq. Qed.

(** C14: a required field left empty blocks the submission: no request is
    sent, the validation toast is shown, [isSubmitting] is unchanged and
    the field's error message is set. *)
Theorem submit_blocked fs k msg :
  (k, msg) ∈ [("itemName", "Item name is required"); ("description", "Description is required");
              ("category", "Please select a category"); ("condition", "Please select condition");
              ("location", "Location is required"); ("contactEmail", "Email is required")] ->
  field (formData fs) k = EmptyString ->
  let r := submitDonation fs in
  sub_pending r = None /\ sub_toasts r = [ToastValidationError] /\
  isSubmitting (sub_form r) = isSubmitting fs /\ errors (sub_form r) !! k = Some msg.
Proof.
  intros Hk Hempty.
  assert (Herr : formErrors fs !! k = Some msg).
  { apply list_elem_of_In in Hk. simpl in Hk. unfold formErrors. cbv zeta.
    repeat match goal with H : _ \/ _ |- _ => destruct H as [H|H] end;
      [..|done]; injection Hk as <- <-; rewrite Hempty;
      try change (blank (trim EmptyString)) with true;
      try change (blank EmptyString) with true; cbv iota beta;
      try destruct (blank (trim (field (formData fs) "contactEmail")));
      repeat (rewrite lookup_check_ne by done); apply lookup_check_true. }
  assert (Hbad : snd (validateForm fs) = false).
  { apply not_true_iff_false. rewrite validateForm_ok. intros He. by rewrite He in Herr. }
  rewrite (submitDonation_invalid fs Hbad). done.
Qed.

(** ** The invariant of the form *)

Lemma handleInputChange_fields n v fs :
  let fs' := handleInputChange n v fs in
  formData fs' = <[n := v]> (formData fs) /\ selectedFile fs' = selectedFile fs /\
  isSubmitting fs' = isSubmitting fs.
Proof. unfold handleInputChange. by destruct (truthy _). Qed.

Lemma handleSelectChange_fields n v fs :
  let fs' := handleSelectChange n v fs in
  formData fs' = <[n := v]> (formData fs) /\ selectedFile fs' = selectedFile fs /\
  isSubmitting fs' = isSubmitting fs.
Proof. unfold handleSelectChange. by destruct (truthy _). Qed.

(** A file is kept only when it is an image of at most 5MB. *)
Lemma handleFileChange_fields o fs :
  let fs' := handleFileChange o fs in
  formData fs' = formData fs /\ isSubmitting fs' = isSubmitting fs /\
  (selectedFile fs' = selectedFile fs \/ exists f, selectedFile fs' = Some f /\ image_ok f).
Proof.
  destruct o as [f|]; simpl; [|by auto].
  destruct (String.prefix "image/" (file_type f)) eqn:Hty; simpl; [|by auto].
  case_bool_decide as Hsz; simpl; [by auto|].
  split_and!; [done|done|]. right. exists f. split; [done|]. split; [done|lia].
Qed.

Lemma field_insert_ne fd n v k : n <> k -> field (<[n := v]> fd) k = field fd k.
Proof. intros Hne. unfold field. by rewrite lookup_insert_ne. Qed.

Lemma field_insert_eq fd n v : field (<[n := v]> fd) n = v.
Proof. unfold field. by rewrite lookup_insert_eq. Qed.

(** An edit of one key of [formData] keeps the form well formed when it is
    a text input, or a select set to one of its items. *)
Lemma form_wf_edit fs fs' n v :
  form_wf fs -> formData fs' = <[n := v]> (formData fs) -> selectedFile fs' = selectedFile fs ->
  (n ∈ TEXT_INPUTS \/ (n = "category" /\ v ∈ CATEGORIES) \/ (n = "condition" /\ v ∈ CONDITIONS)) ->
  form_wf fs'.
Proof.
  intros (Hkeys & Hcat & Hcond & Hfile) Hfd Hsel Hn. unfold form_wf. rewrite Hfd.
  split_and!; [| | |by rewrite Hsel].
  - eapply Forall_impl; [apply Hkeys|]. intros k Hk. by apply lookup_insert_is_Some'; right.
  - destruct (decide (n = "category")) as [->|Hne].
    + rewrite field_insert_eq. unfold TEXT_INPUTS in Hn. set_solver.
    + by rewrite field_insert_ne.
  - destruct (decide (n = "condition")) as [->|Hne].
    + rewrite field_insert_eq. unfold TEXT_INPUTS in Hn. set_solver.
    + by rewrite field_insert_ne.
Qed.

Lemma form_wf_keep fs fs' :
  form_wf fs -> formData fs' = formData fs ->
  (selectedFile fs' = selectedFile fs \/ exists f, selectedFile fs' = Some f /\ image_ok f) ->
  form_wf fs'.
Proof.
  intros (Hkeys & Hcat & Hcond & Hfile) Hfd Hsel. unfold form_wf. rewrite Hfd.
  split_and!; [done..|].
  intros f Hf. destruct Hsel as [Hsel|(f' & Hsel & Hok)]; [apply Hfile; congruence|congruence].
Qed.

(** What validation let through makes a valid row: the trims of the text
    fields are not blank and trimming leaves the accepted email as it
    is. *)
Lemma newItemOf_valid fd img : fields_valid fd -> item_valid (newItemOf fd img).
Proof.
  intros (Hn & Hd & Hc & Hcd & Hl & He). unfold item_valid; simpl.
  split_and!; try done. by rewrite trim_email.
Qed.

Lemma app_eq_singleton {A} (l1 l2 : list A) x y :
  l1 ++ x :: l2 = [y] -> l1 = [] /\ l2 = [] /\ x = y.
Proof. destruct l1 as [|? [|]]; simpl; intros; simplify_eq; done. Qed.

Lemma app_neq_nil {A} (l1 l2 : list A) x : l1 ++ x :: l2 <> [].
Proof. by destruct l1. Qed.

Lemma formsys_inv_init : formsys_inv initFormSys.
Proof.
  split; [|left; done]. split_and!.
  - repeat constructor; eexists; reflexivity.
  - by left.
  - by left.
  - done.
Qed.

(** The form once the submission is over: [isSubmitting] off, nothing
    in flight. *)
Lemma submitFailed_inv s rest fs :
  form_wf fs -> rest = [] -> formsys_inv (apply_result (submitFailed fs) rest s).
Proof.
  intros Hwf ->. split; [|by left]. by apply (form_wf_keep fs); [..|left].
Qed.

Lemma form_handle_edit_inv s e :
  e <> SubmitForm -> form_enabled e (fform s) -> formsys_inv s ->
  formsys_inv (apply_result (form_handle e (fform s)) (fpending s) s).
Proof.
  intros He Hen (Hwf & Hsub). unfold formsys_inv, apply_result.
  destruct e as [n v|n v|o|]; simpl; rewrite ?app_nil_r; [..|done].
  - destruct (handleInputChange_fields n v (fform s)) as (Hfd & Hsel & ->).
    split; [|done]. eapply form_wf_edit; eauto.
  - destruct (handleSelectChange_fields n v (fform s)) as (Hfd & Hsel & ->).
    split; [|done]. eapply form_wf_edit; eauto.
  - destruct (handleFileChange_fields o (fform s)) as (Hfd & -> & Hsel).
    split; [|done]. by eapply form_wf_keep.
Qed.

Lemma form_handle_submit_inv s :
  isSubmitting (fform s) = false -> formsys_inv s ->
  formsys_inv (apply_result (form_handle SubmitForm (fform s)) (fpending s) s).
Proof.
  intros Hen (Hwf & [[_ Hp]|[Hs _]]); [|congruence]. simpl. rewrite Hp.
  destruct (snd (validateForm (fform s))) eqn:Hok.
  - destruct (submitDonation_valid _ Hok) as (f & Hsel & ->).
    pose proof Hok as Hv. apply validateForm_spec in Hv as [Hfields _]; [|done].
    split; [by apply (form_wf_keep (fform s)); [..|left]|].
    right. split; [done|]. eexists. split; [done|]. split; [|done].
    destruct Hwf as (_ & _ & _ & Hfile). by apply Hfile.
  - rewrite (submitDonation_invalid _ Hok). split; [by apply (form_wf_keep (fform s)); [..|left]|].
    by left.
Qed.

(** C15: every step of the form keeps its invariant: the six keys of
    [formData] stay, each select holds nothing or one of its items, the
    selected file is an image of at most 5MB, and either nothing is
    submitting and nothing is in flight, or exactly one request of the
    submission is in flight and what it carries passed validation. *)
Theorem formsys_step_inv s s' : form_step s s' -> formsys_inv s -> formsys_inv s'.
Proof.
  intros Hst Hinv. destruct Hst as [s e Hen|s l1 l2 f fd res Hp|s l1 l2 it res Hp].
  - destruct e; [by apply form_handle_edit_inv..|by apply form_handle_submit_inv].
  - destruct Hinv as (Hwf & [[_ Hnil]|(Hs & p & Hone & Hok)]);
      [by rewrite Hp in Hnil; destruct (app_neq_nil l1 l2 (PReadFile f fd))|].
    rewrite Hp in Hone. apply app_eq_singleton in Hone as (-> & -> & <-).
    destruct Hok as [_ Hfields]. destruct res as [img|]; [|by apply submitFailed_inv].
    split; [done|]. right. split; [done|]. eexists. split; [done|].
    by apply newItemOf_valid.
  - destruct Hinv as (Hwf & [[_ Hnil]|(Hs & p & Hone & Hok)]);
      [by rewrite Hp in Hnil; destruct (app_neq_nil l1 l2 (PSave it))|].
    rewrite Hp in Hone. apply app_eq_singleton in Hone as (-> & -> & <-).
    unfold saveDone. destruct (Client.save_error _); [by apply submitFailed_inv|].
    split; [by apply (form_wf_keep (fform s)); [..|left]|]. by left.
Qed.

Lemma formsys_star_inv s s' : form_star s s' -> formsys_inv s -> formsys_inv s'.
Proof. induction 1; eauto using formsys_step_inv. Qed.

(** C16: from the empty form, in every reachable state at most one
    request of a submission is in flight, and every row sent to
    [saveDonatedItemToDB] has a name, description and location that are
    not blank, a category and a condition from their lists and an email
    the pattern accepts. *)
Theorem donate_sends_valid s :
  form_star initFormSys s ->
  length (fpending s) <= 1 /\ forall it, PSave it ∈ fpending s -> item_valid it.
Proof.
  intros Hr. destruct (formsys_star_inv _ _ Hr formsys_inv_init) as (_ & [[_ ->]|(_ & p & -> & Hok)]).
  - split; [simpl; lia|]. intros it Hit. by apply not_elem_of_nil in Hit.
  - split; [done|]. intros it Hit%list_elem_of_singleton. by subst.
Qed.

(** C17: the email is tested before it is trimmed.  For every form whose
    contact email is a blank followed by an address the pattern accepts,
    validation fails and reports "Please enter a valid email" for the
    email, although trimming gives back that very address, the one
    [submitDonation] would send. *)
Theorem padded_email_rejected fs c t :
  is_ws c = true -> email_test t = true ->
  field (formData fs) "contactEmail" = String c t ->
  trim (String c t) = t /\ snd (validateForm fs) = false /\
  errors (fst (validateForm fs)) !! "contactEmail" = Some "Please enter a valid email".
Proof.
  intros Hc Ht He.
  assert (Htrim : trim (String c t) = t) by (rewrite trim_ws_head by done; by apply trim_email).
  assert (Herr : formErrors fs !! "contactEmail" = Some "Please enter a valid email").
  { unfold formErrors. cbv zeta. rewrite lookup_check_ne by done.
    rewrite He, (trim_ws_head c t Hc), (email_test_nonblank t Ht), (email_test_ws_head c t Hc). apply lookup_check_true. }
  split_and!; [done| |done].
  apply not_true_iff_false. rewrite validateForm_ok. intros E. by rewrite E in Herr.
Qed.
