(* ===== verification/Scenarios.v ===== *)
(** * Scenarios: the theorems at concrete stores and states

    Each lemma here applies one theorem of the development at a concrete
    input, with the JSON codec of [JsonText.v] for [JSON.stringify] and
    [JSON.parse], and checks its hypotheses there by evaluation: a store
    holding nothing, a store holding the text [5] under the claimed-list
    key, a grid with a placeholder or a donated item targeted, small
    systems of [Sync.v], and filled-in donation forms. *)

From Stdlib Require Import Ascii.
From S2P Require Import Prelude Types Json JsonText LocalStore Database ItemGrid Sync Validation DonateForm.

(** A grid whose confirmation dialog is open on a claim target. *)
Definition grid_confirming (t : ClaimTarget) (items : list DatabaseDonatedItem) : GridState :=
  mkGrid items INITIAL_PLACEHOLDER_ITEMS false true false (Some t).

(** The store after a corrupt write of the claimed list. *)
Definition corrupt_store : Store := {[CLAIMED_PLACEHOLDERS_KEY := "5"]}.

(** A row of the table. *)
Definition lamp : DatabaseDonatedItem := demo_row "r1" "a@b.co" 1.

(** A reconciled system: joined, nothing in flight, the grid shows the
    table. *)
Definition idle_sys (rows : list DatabaseDonatedItem) (g : GridState) : Sys :=
  mkSys rows 1 g ∅ true [] [].

(** The browser's grid before and after the initial fetch. *)
Definition grid_loading : GridState := mkGrid [] INITIAL_PLACEHOLDER_ITEMS true false false None.
Definition grid_idle (items : list DatabaseDonatedItem) : GridState :=
  mkGrid items INITIAL_PLACEHOLDER_ITEMS false false false None.

(** What another client inserts: the lamp of [lamp]. *)
Definition lamp_item : NewItem :=
  mkNewItem "Lamp" "Desk lamp" "Furniture" "Good" "Downtown" "a@b.co" "img".

(** A filled-in donation form with a selected photo. *)
Definition good_form : FormState :=
  mkForm (list_to_map [("itemName", "Lamp"); ("description", "Desk lamp");
                       ("category", "Furniture"); ("condition", "Good");
                       ("location", "Downtown"); ("contactEmail", "a@b.co")])
    (Some (mkFile "image/png" 1000 "blob:1")) "blob:1" false ∅.

(** The same form with a blank before the address. *)
Definition padded_form : FormState :=
  setFormData (<["contactEmail" := " a@b.co"]>) good_form.

Lemma addClaimedPlaceholderId_persists_witness :
  claims_stored ∅ [] /\
  store_size (<[CLAIMED_PLACEHOLDERS_KEY :=
                json_stringify (JArr (JStr <$> [] ++ ["ph-1"]))]> ∅) <= 100 /\
  exists st', addClaimedPlaceholderId 100 "ph-1" ∅ = JsOk st' /\
              claims_stored st' (claims_after [] "ph-1").
Proof.
  assert (Hs : claims_stored ∅ []) by (left; split; reflexivity).
  assert (Hq : store_size (<[CLAIMED_PLACEHOLDERS_KEY :=
                 json_stringify (JArr (JStr <$> [] ++ ["ph-1"]))]> ∅) <= 100)
    by (apply Nat.leb_le; vm_compute; reflexivity).
  split; [exact Hs|]. split; [exact Hq|].
  exact (addClaimedPlaceholderId_persists 100 ∅ [] "ph-1" Hs Hq).
Defined.

Lemma addClaimedPlaceholderId_quota_witness :
  claims_stored ∅ [] /\ ("ph-1" ∉ []) /\
  10 < store_size (<[CLAIMED_PLACEHOLDERS_KEY :=
                     json_stringify (JArr (JStr <$> [] ++ ["ph-1"]))]> ∅) /\
  addClaimedPlaceholderId 10 "ph-1" ∅ = JsThrow QuotaExceededError.
Proof.
  assert (Hs : claims_stored ∅ []) by (left; split; reflexivity).
  assert (Hn : "ph-1" ∉ @nil string) by (apply not_elem_of_nil).
  assert (Hq : 10 < store_size (<[CLAIMED_PLACEHOLDERS_KEY :=
                 json_stringify (JArr (JStr <$> [] ++ ["ph-1"]))]> ∅))
    by (apply Nat.ltb_lt; vm_compute; reflexivity).
  split; [exact Hs|]. split; [exact Hn|]. split; [exact Hq|].
  exact (addClaimedPlaceholderId_quota 10 ∅ [] "ph-1" Hs Hn Hq).
Defined.

Lemma addClaimedPlaceholderId_corrupt_witness :
  corrupt_store !! CLAIMED_PLACEHOLDERS_KEY = Some "5" /\ "5" <> EmptyString /\
  json_parse "5" = Some (JNum 5) /\
  addClaimedPlaceholderId 100 "ph-1" corrupt_store = JsThrow TypeError.
Proof.
  assert (Hk : corrupt_store !! CLAIMED_PLACEHOLDERS_KEY = Some "5") by reflexivity.
  assert (Hne : "5" <> EmptyString) by discriminate.
  assert (Hp : json_parse "5" = Some (JNum 5)) by reflexivity.
  split; [exact Hk|]. split; [exact Hne|]. split; [exact Hp|].
  exact (addClaimedPlaceholderId_corrupt 100 corrupt_store "5" (JNum 5) "ph-1" Hk Hne Hp
           (fun _ => ltac:(discriminate)) (fun _ => ltac:(discriminate))).
Defined.

Lemma confirm_placeholder_persists_witness :
  let g := grid_confirming (mkTarget CTPlaceholder "ph-1" "Vintage Wooden Chair"
                              PLACEHOLDER_EMAIL) [] in
  claims_stored ∅ [] /\
  store_size (<[CLAIMED_PLACEHOLDERS_KEY :=
                json_stringify (JArr (JStr <$> [] ++ ["ph-1"]))]> ∅) <= 100 /\
  let r := ui_handle 100 ClickConfirm g ∅ in
  res_rejected r = None /\ res_tasks r = [] /\
  confirmOpen (res_grid r) = false /\ successOpen (res_grid r) = true /\
  placeholderItems (res_grid r) = placeholderItems g ⊖ "ph-1" /\
  exists ph, initialPlaceholderItems (res_store r) = JsOk ph /\ "ph-1" ∉ ids ph.
Proof.
  intros g.
  assert (Hs : claims_stored ∅ []) by (left; split; reflexivity).
  assert (Hq : store_size (<[CLAIMED_PLACEHOLDERS_KEY :=
                 json_stringify (JArr (JStr <$> [] ++ ["ph-1"]))]> ∅) <= 100)
    by (apply Nat.leb_le; vm_compute; reflexivity).
  split; [exact Hs|]. split; [exact Hq|].
  exact (confirm_placeholder_persists 100 g ∅ [] "ph-1" _ _ eq_refl Hs Hq).
Defined.

Lemma confirm_placeholder_corrupt_witness :
  let g := grid_confirming (mkTarget CTPlaceholder "ph-1" "Vintage Wooden Chair"
                              PLACEHOLDER_EMAIL) [] in
  corrupt_store !! CLAIMED_PLACEHOLDERS_KEY = Some "5" /\
  json_parse "5" = Some (JNum 5) /\
  let r := ui_handle 100 ClickConfirm g corrupt_store in
  res_rejected r = Some TypeError /\ res_store r = corrupt_store /\
  successOpen (res_grid r) = successOpen g /\ confirmOpen (res_grid r) = false /\
  placeholderItems (res_grid r) = placeholderItems g.
Proof.
  intros g.
  assert (Hk : corrupt_store !! CLAIMED_PLACEHOLDERS_KEY = Some "5") by reflexivity.
  assert (Hp : json_parse "5" = Some (JNum 5)) by reflexivity.
  split; [exact Hk|]. split; [exact Hp|].
  exact (confirm_placeholder_corrupt 100 g corrupt_store "5" (JNum 5) "ph-1" _ _ eq_refl
           Hk ltac:(discriminate) Hp (fun _ => ltac:(discriminate))
           (fun _ => ltac:(discriminate))).
Defined.

Lemma synced_step_witness :
  let s := idle_sys [] (grid_idle []) in
  let s' := mkSys [lamp] 1 (grid_idle []) ∅ true [ChInsert lamp] [] in
  step 100 s s' /\ synced s /\ synced s'.
Proof.
  intros s s'.
  assert (Hst : step 100 s s').
  { apply (StepOtherInsert 100 s "r1" 1 lamp_item (ok lamp) [lamp] [ChInsert lamp]);
      [simpl; lia|reflexivity]. }
  assert (Hs : synced s) by (split_and!; [reflexivity|constructor|reflexivity]).
  split; [exact Hst|]. split; [exact Hs|].
  exact (synced_step 100 s s' Hst Hs).
Defined.

Lemma synced_refines_witness :
  let s := idle_sys [] (grid_idle []) in
  let s' := mkSys [lamp] 1 (grid_idle [lamp]) ∅ true [] [] in
  synced s /\ star 100 s s' /\ inbox s' = [] /\ donatedItems (grid s') ≡ₚ table s'.
Proof.
  intros s s'.
  assert (Hs : synced s) by (split_and!; [reflexivity|constructor|reflexivity]).
  assert (Hstar : star 100 s s').
  { eapply star_step.
    { apply (StepOtherInsert 100 s "r1" 1 lamp_item (ok lamp) [lamp] [ChInsert lamp]);
        [simpl; lia|reflexivity]. }
    eapply star_step; [eapply StepNotify; reflexivity|]. apply star_refl. }
  split; [exact Hs|]. split; [exact Hstar|]. split; [reflexivity|].
  exact (synced_refines 100 s s' Hs Hstar eq_refl).
Defined.

Lemma fetch_reconciles_witness :
  let s := mkSys [lamp] 1 grid_loading ∅ true [ChInsert lamp]
             [FSelReply (ok []) fetchItemsDone] in
  subscribed s = true /\ Server.select_reply [] [] /\
  table s = ServerFacts.replay (inbox s) [] /\
  exists s', step 100 s s' /\ synced s'.
Proof.
  intros s.
  assert (Hsel : Server.select_reply [] []) by (split; [done|constructor]).
  split; [reflexivity|]. split; [exact Hsel|]. split; [reflexivity|].
  exact (fetch_reconciles 100 s [] [] [] [] eq_refl eq_refl (Forall_nil_2 _) Hsel eq_refl).
Defined.

Lemma claim_failure_reports_success_witness :
  let s := idle_sys [lamp] (grid_confirming (mkTarget CTDonated "r1" "Lamp" "a@b.co") [lamp]) in
  confirmOpen (grid s) = true /\ inflight s = [] /\
  exists s', star 100 s s' /\ table s' = table s /\ inflight s' = [] /\
    successOpen (grid s') = true /\ shownEmail (grid s') = "a@b.co" /\
    donatedItems (grid s') = donatedItems (grid s).
Proof.
  intros s. split; [reflexivity|]. split; [reflexivity|].
  exact (claim_failure_reports_success 100 s "r1" "Lamp" "a@b.co" "network error"
           eq_refl eq_refl eq_refl).
Defined.

Lemma good_form_wf : form_wf good_form.
Proof.
  split_and!.
  - repeat constructor; eexists; reflexivity.
  - apply (bool_decide_unpack _). vm_compute. reflexivity.
  - apply (bool_decide_unpack _). vm_compute. reflexivity.
  - intros f [= <-]. split; [reflexivity|]. unfold MAX_IMAGE_SIZE. simpl. lia.
Qed.

Lemma validateForm_spec_witness :
  form_wf good_form /\ snd (validateForm good_form) = true /\
  fields_valid (formData good_form) /\ selectedFile good_form <> None.
Proof.
  split; [exact good_form_wf|]. split; [vm_compute; reflexivity|].
  exact (proj1 (validateForm_spec good_form good_form_wf) ltac:(vm_compute; reflexivity)).
Defined.

Lemma submit_blocked_witness :
  field (formData initForm) "itemName" = EmptyString /\
  let r := submitDonation initForm in
  sub_pending r = None /\ sub_toasts r = [ToastValidationError] /\
  isSubmitting (sub_form r) = isSubmitting initForm /\
  errors (sub_form r) !! "itemName" = Some "Item name is required".
Proof.
  split; [reflexivity|].
  exact (submit_blocked initForm "itemName" "Item name is required" ltac:(left) eq_refl).
Defined.

Lemma formsys_step_inv_witness :
  let s := mkFormSys good_form [] [] false in
  let s' := apply_result (form_handle SubmitForm good_form) [] s in
  form_step s s' /\ formsys_inv s /\ formsys_inv s'.
Proof.
  intros s s'.
  assert (Hst : form_step s s') by (apply (FStepUi s SubmitForm); reflexivity).
  assert (Hinv : formsys_inv s) by (split; [exact good_form_wf|left; done]).
  split; [exact Hst|]. split; [exact Hinv|].
  exact (formsys_step_inv s s' Hst Hinv).
Defined.

Lemma donate_sends_valid_witness :
  let s := apply_result (form_handle (InputChange "itemName" "Lamp") initForm) [] initFormSys in
  form_star initFormSys s /\
  length (fpending s) <= 1 /\ forall it, PSave it ∈ fpending s -> item_valid it.
Proof.
  intros s.
  assert (Hr : form_star initFormSys s).
  { eapply form_star_step; [|apply form_star_refl].
    apply (FStepUi initFormSys (InputChange "itemName" "Lamp")). left. }
  split; [exact Hr|]. exact (donate_sends_valid s Hr).
Defined.

Lemma padded_email_rejected_witness :
  is_ws " "%char = true /\ email_test "a@b.co" = true /\
  field (formData padded_form) "contactEmail" = String " "%char "a@b.co" /\
  trim (String " "%char "a@b.co") = "a@b.co" /\ snd (validateForm padded_form) = false /\
  errors (fst (validateForm padded_form)) !! "contactEmail" = Some "Please enter a valid email".
Proof.
  assert (Hc : is_ws " "%char = true) by reflexivity.
  assert (Ht : email_test "a@b.co" = true) by reflexivity.
  assert (He : field (formData padded_form) "contactEmail" = String " "%char "a@b.co")
    by reflexivity.
  split; [exact Hc|]. split; [exact Ht|]. split; [exact He|].
  exact (padded_email_rejected padded_form " "%char "a@b.co" Hc Ht He).
Defined.
